(** * Document-intake pipeline: checksum validator, text normaliser,
      field reader and the two extraction pipelines.

    A shallow embedding of [src/app/utils.py] ([validate_cnp]) and
    [src/app/azure_services.py] ([remove_code_blocks], [get_field_value],
    [process_id_document], [process_handwritten_document],
    [clean_text_with_openai], [extract_fields_with_openai]).

    Python strings are sequences of Unicode code points; the character
    classes the code relies on ([\s] and [str.strip], [\d] and [int],
    [str.isdigit]) are those of the interpreter's Unicode database.
    External services (the document-analysis client, the chat-completion
    endpoint) and [json.loads] are inputs of the model.  Calls to the
    logger change nothing the functions return and are left out. *)

From Stdlib Require Import String Ascii NArith ZArith Bool List Lia.
Import ListNotations.

Open Scope N_scope.
Open Scope list_scope.

(** ** Characters and strings *)

(** A character is a Unicode code point. *)
Definition char := N.
Definition str := list char.

Definition chr (a : ascii) : char := N_of_ascii a.

(** An ASCII literal as a Python string. *)
Definition lit (s : string) : str := map chr (list_ascii_of_string s).

Definition nl : char := 0x0A.

Fixpoint str_eqb (a b : str) : bool :=
  match a, b with
  | [], [] => true
  | x :: a', y :: b' => (x =? y) && str_eqb a' b'
  | _, _ => false
  end.

(** [Py_UNICODE_ISSPACE]: the class behind both [str.strip()] and the
    pattern escape [\s] on [str] patterns. *)
Definition isspace (c : char) : bool :=
  ((0x09 <=? c) && (c <=? 0x0D)) || ((0x1C <=? c) && (c <=? 0x20))
  || (c =? 0x85) || (c =? 0xA0) || (c =? 0x1680)
  || ((0x2000 <=? c) && (c <=? 0x200A))
  || (c =? 0x2028) || (c =? 0x2029) || (c =? 0x202F) || (c =? 0x205F)
  || (c =? 0x3000).

Fixpoint lstrip (s : str) : str :=
  match s with
  | c :: s' => if isspace c then lstrip s' else s
  | [] => []
  end.

Definition rstrip (s : str) : str := rev (lstrip (rev s)).

(** [s.strip()] *)
Definition strip (s : str) : str := rstrip (lstrip s).

Fixpoint startswith (s p : str) : bool :=
  match p, s with
  | [], _ => true
  | x :: p', c :: s' => (c =? x) && startswith s' p'
  | _ :: _, [] => false
  end.

Definition endswith (s p : str) : bool := startswith (rev s) (rev p).

(** [sep.join(parts)] *)
Fixpoint join (sep : str) (parts : list str) : str :=
  match parts with
  | [] => []
  | [p] => p
  | p :: rest => p ++ sep ++ join sep rest
  end.

(** ** Exceptions and results *)

(** The classes of [Exception] the code can meet.  [OtherError] stands
    for any further subclass of [Exception] raised inside a library. *)
Inductive exn_class : Type :=
| ValueError | JSONDecodeError | IndexError | TypeError | AttributeError
| UnboundLocalError | RuntimeError | OtherError.

Record exn : Type := mk_exn { exn_type : exn_class; exn_msg : str }.

(** [isinstance(e, cls)]; [json.JSONDecodeError] derives from
    [ValueError]. *)
Definition isinstance (e : exn) (cls : exn_class) : bool :=
  match exn_type e, cls with
  | ValueError, ValueError | JSONDecodeError, ValueError
  | JSONDecodeError, JSONDecodeError | IndexError, IndexError
  | TypeError, TypeError | AttributeError, AttributeError
  | UnboundLocalError, UnboundLocalError | RuntimeError, RuntimeError
  | OtherError, OtherError => true
  | _, _ => false
  end.

Inductive result (A : Type) : Type :=
| Ok (a : A)
| Raise (e : exn).
Arguments Ok {A} a.
Arguments Raise {A} e.

Definition rbind {A B} (m : result A) (f : A -> result B) : result B :=
  match m with
  | Ok a => f a
  | Raise e => Raise e
  end.

Declare Scope py_scope.
Delimit Scope py_scope with py.
Notation "x <- m ;; k" := (rbind m (fun x => k))
  (at level 61, m at next level, right associativity) : py_scope.
Open Scope py_scope.

Fixpoint mapM {A B} (f : A -> result B) (l : list A) : result (list B) :=
  match l with
  | [] => Ok []
  | a :: l' => b <- f a ;; bs <- mapM f l' ;; Ok (b :: bs)
  end.

(** [l[i]] with Python's negative indices. *)
Definition index {A} (l : list A) (i : Z) : result A :=
  let n := Z.of_nat (List.length l) in
  let j := (if i <? 0 then n + i else i)%Z in
  if ((0 <=? j) && (j <? n))%Z then
    match nth_error l (Z.to_nat j) with
    | Some a => Ok a
    | None => Raise (mk_exn IndexError (lit "list index out of range"))
    end
  else Raise (mk_exn IndexError (lit "list index out of range")).

(** ** Python values *)

(** The values a field, a field attribute or a decoded JSON document can
    be.  [PObj] is an object with data attributes only (such as the
    client library's field objects). *)
#[local] Unset Elimination Schemes.
Inductive pyval : Type :=
| PNone
| PBool (b : bool)
| PInt (z : Z)
| PStr (s : str)
| PList (l : list pyval)
| PDict (d : list (str * pyval))
| PObj (attrs : list (str * pyval)).
#[local] Set Elimination Schemes.

Definition dict := list (str * pyval).

(** [bool(v)] *)
Definition truthy (v : pyval) : bool :=
  match v with
  | PNone => false
  | PBool b => b
  | PInt z => negb (z =? 0)%Z
  | PStr s => negb (str_eqb s [])
  | PList l => match l with [] => false | _ => true end
  | PDict d => match d with [] => false | _ => true end
  | PObj _ => true
  end.

Fixpoint lookup (d : dict) (k : str) : option pyval :=
  match d with
  | [] => None
  | (k', v) :: d' => if str_eqb k' k then Some v else lookup d' k
  end.

(** [d[k] = v]: overwrite in place, or append. *)
Fixpoint setitem (d : dict) (k : str) (v : pyval) : dict :=
  match d with
  | [] => [(k, v)]
  | (k', v') :: d' =>
      if str_eqb k' k then (k', v) :: d' else (k', v') :: setitem d' k v
  end.

(** [d.get(k)] *)
Definition dict_get (d : dict) (k : str) : pyval :=
  match lookup d k with Some v => v | None => PNone end.

(** [d.get(k, default)] *)
Definition dict_get_default (d : dict) (k : str) (default : pyval) : pyval :=
  match lookup d k with Some v => v | None => default end.

Definition type_name (v : pyval) : str :=
  match v with
  | PNone => lit "NoneType" | PBool _ => lit "bool" | PInt _ => lit "int"
  | PStr _ => lit "str" | PList _ => lit "list" | PDict _ => lit "dict"
  | PObj _ => lit "object"
  end.

(** What looking up method [name] on a value without it raises. *)
Definition no_method (v : pyval) (name : str) : exn :=
  match v with
  | PObj attrs =>
      match lookup attrs name with
      | Some a => mk_exn TypeError
                    (lit "'" ++ type_name a ++ lit "' object is not callable")
      | None => mk_exn AttributeError
                  (lit "'" ++ type_name v ++ lit "' object has no attribute '"
                   ++ name ++ lit "'")
      end
  | _ => mk_exn AttributeError
           (lit "'" ++ type_name v ++ lit "' object has no attribute '"
            ++ name ++ lit "'")
  end.

(** [v.strip()] *)
Definition call_strip (v : pyval) : result str :=
  match v with
  | PStr s => Ok (strip s)
  | _ => Raise (no_method v (lit "strip"))
  end.

(** [v.get(k, default)] *)
Definition call_get (v : pyval) (k : str) (default : pyval) : result pyval :=
  match v with
  | PDict d => Ok (dict_get_default d k default)
  | _ => Raise (no_method v (lit "get"))
  end.

(** [hasattr(v, name)] for the data attribute [name]. *)
Definition hasattr (v : pyval) (name : str) : bool :=
  match v with
  | PObj attrs => match lookup attrs name with Some _ => true | None => false end
  | _ => false
  end.

(** [v.name], used only after [hasattr]. *)
Definition getattr (v : pyval) (name : str) : pyval :=
  match v with
  | PObj attrs => dict_get attrs name
  | _ => PNone
  end.

(** ** A backtracking matcher for the patterns of the code

    The three patterns used are concatenations of single-character
    classes, greedy and lazy repetitions of a class, and the anchors
    [^] and [$]; one repetition is a capturing group.  The matcher tries
    the alternatives in the order of [re]: a greedy repetition takes as
    many characters as it can and gives them back one at a time, a lazy
    one takes as few as it can. *)

Inductive atom : Type :=
| Bol                               (* ^ *)
| Eol                               (* $ *)
| Chr (p : char -> bool)            (* one character of a class *)
| Star (p : char -> bool)           (* p*  *)
| LazyStar (p : char -> bool).      (* p*? *)

Inductive item : Type :=
| Plain (a : atom)
| Capture (a : atom).               (* ( a ) *)

Definition regex := list item.

Definition atom_of (i : item) : atom :=
  match i with Plain a | Capture a => a end.

Definition is_capture (i : item) : bool :=
  match i with Capture _ => true | Plain _ => false end.

(** [$] without [re.MULTILINE]: at the end, or before a final newline. *)
Definition at_eol (s : str) : bool :=
  match s with
  | [] => true
  | [c] => c =? nl
  | _ => false
  end.

(** [bos] tells whether the position is the start of the string; the
    continuation [k] matches what follows the repetition. *)
Fixpoint greedy (p : char -> bool) (k : bool -> str -> option (list str))
  (bos : bool) (s : str) : option (str * list str) :=
  let stop := option_map (pair []) (k bos s) in
  match s with
  | c :: s' =>
      if p c then
        match greedy p k false s' with
        | Some (t, ts) => Some (c :: t, ts)
        | None => stop
        end
      else stop
  | [] => stop
  end.

Fixpoint lazy (p : char -> bool) (k : bool -> str -> option (list str))
  (bos : bool) (s : str) : option (str * list str) :=
  match k bos s with
  | Some ts => Some ([], ts)
  | None =>
      match s with
      | c :: s' =>
          if p c then
            match lazy p k false s' with
            | Some (t, ts) => Some (c :: t, ts)
            | None => None
            end
          else None
      | [] => None
      end
  end.

(** Match [r] at the head of [s]; the result lists the text each item
    consumed. *)
Fixpoint match_here (r : regex) (bos : bool) (s : str) : option (list str) :=
  match r with
  | [] => Some []
  | i :: r' =>
      match atom_of i with
      | Bol => if bos then option_map (cons []) (match_here r' bos s) else None
      | Eol =>
          if at_eol s then option_map (cons []) (match_here r' bos s) else None
      | Chr p =>
          match s with
          | c :: s' =>
              if p c then option_map (cons [c]) (match_here r' false s')
              else None
          | [] => None
          end
      | Star p =>
          option_map (fun '(t, ts) => t :: ts) (greedy p (match_here r') bos s)
      | LazyStar p =>
          option_map (fun '(t, ts) => t :: ts) (lazy p (match_here r') bos s)
      end
  end.

(** [re.match(r, s)] *)
Definition re_match (r : regex) (s : str) : option (list str) :=
  match_here r true s.

Fixpoint search_from (r : regex) (bos : bool) (s : str) : option (list str) :=
  match match_here r bos s with
  | Some ts => Some ts
  | None =>
      match s with
      | [] => None
      | _ :: s' => search_from r false s'
      end
  end.

(** [re.search(r, s)]: the first position from the left with a match. *)
Definition re_search (r : regex) (s : str) : option (list str) :=
  search_from r true s.

Fixpoint captures (r : regex) (ts : list str) : list str :=
  match r, ts with
  | i :: r', t :: ts' =>
      if is_capture i then t :: captures r' ts' else captures r' ts'
  | _, _ => []
  end.

(** [m.group(1)] *)
Definition group1 (r : regex) (ts : list str) : str :=
  nth 0 (captures r ts) [].

(** A literal run of the pattern. *)
Definition lits (s : string) : regex :=
  map (fun c => Plain (Chr (N.eqb c))) (lit s).

Definition is_nl (c : char) : bool := c =? nl.

(** The class [[\s\S]]. *)
Definition any_char (c : char) : bool := isspace c || negb (isspace c).

(** ** The services the pipelines call *)

(** One recognised document: [document.fields]. *)
Record document : Type := { fields : dict }.

(** [poller.result()]: [result.documents], and [result.pages] as the
    [content] of each line of each page. *)
Record analyze_result : Type := {
  documents : list document;
  pages : list (list str)
}.

(** A chat message: role and content. *)
Definition message := (str * str)%type.

(** What the outside world answers.  [new_client] is the construction of
    [DocumentAnalysisClient] with its credential;
    [begin_analyze_document model_id bytes] is the call followed by
    [poller.result()]; [chat_completion_create messages] answers with
    [choices[i].message['content']] for each choice ([None] for a null
    content), the sampling parameters being constants of the code;
    [json_loads] is [json.loads]. *)
Record world : Type := {
  new_client : result unit;
  begin_analyze_document : string -> list Byte.byte -> result analyze_result;
  chat_completion_create : list message -> result (list (option str));
  json_loads : str -> result pyval
}.

(** Calls that leave the process, in the order they are made. *)
Inductive event : Type :=
| EvNewClient
| EvAnalyze (model_id : string) (document_bytes : list Byte.byte)
| EvChat (messages : list message)
| EvJsonLoads (content : str).

(** A computation: the calls it made and how it ended. *)
Definition io (A : Type) : Type := (list event * result A)%type.

Definition ret {A} (a : A) : io A := ([], Ok a).
Definition raise {A} (e : exn) : io A := ([], Raise e).
Definition lift {A} (r : result A) : io A := ([], r).
Definition call {A} (ev : event) (r : result A) : io A := ([ev], r).

Definition bind {A B} (m : io A) (f : A -> io B) : io B :=
  match m with
  | (tr, Ok a) => let '(tr', r) := f a in (tr ++ tr', r)
  | (tr, Raise e) => (tr, Raise e)
  end.

(** [try: m  except Exception as e: h e] *)
Definition try_except {A} (m : io A) (h : exn -> io A) : io A :=
  match m with
  | (tr, Raise e) => let '(tr', r) := h e in (tr ++ tr', r)
  | ok => ok
  end.

Notation "x <~ m ;; k" := (bind m (fun x => k))
  (at level 61, m at next level, right associativity) : py_scope.
Notation "' pat <~ m ;; k" := (bind m (fun x => match x with pat => k end))
  (at level 61, pat pattern, m at next level, right associativity) : py_scope.

Definition runtime_error (m : str) : exn := mk_exn RuntimeError m.

(** ** [azure_services.remove_code_blocks] *)

(** [r"```json\s*\n([\s\S]*?)\n```"] *)
Definition json_block_pattern : regex :=
  lits "```json"
  ++ [Plain (Star isspace); Plain (Chr is_nl); Capture (LazyStar any_char);
      Plain (Chr is_nl)]
  ++ lits "```".

(** [r"```\s*\n([\s\S]*?)\n```"] *)
Definition code_block_pattern : regex :=
  lits "```"
  ++ [Plain (Star isspace); Plain (Chr is_nl); Capture (LazyStar any_char);
      Plain (Chr is_nl)]
  ++ lits "```".

Definition remove_code_blocks (text : str) : str :=
  match re_search json_block_pattern text with
  | Some m => strip (group1 json_block_pattern m)
  | None =>
      match re_search code_block_pattern text with
      | Some m => strip (group1 code_block_pattern m)
      | None => strip text
      end
  end.

(** ** [azure_services.get_field_value] *)

Definition get_field_value (field : pyval) : result str :=
  if truthy field then
    match field with
    | PDict d =>
        if truthy (dict_get d (lit "value"))
        then call_strip (dict_get_default d (lit "value") (PStr []))
        else Ok []
    | _ =>
        if hasattr field (lit "value") && truthy (getattr field (lit "value"))
        then call_strip (getattr field (lit "value"))
        else Ok []
    end
  else Ok [].

Section Pipeline.

(** The interpreter's Unicode database outside ASCII:
    [Py_UNICODE_TODECIMAL] (the value of a decimal digit, behind [\d] and
    [int]) and [Py_UNICODE_ISDIGIT] (behind [str.isdigit]). *)
Variable unicode_decimal : char -> option Z.
Variable unicode_isdigit : char -> bool.

Definition to_decimal (c : char) : option Z :=
  if c <? 0x80 then
    if (0x30 <=? c) && (c <=? 0x39) then Some (Z.of_N (c - 0x30)) else None
  else unicode_decimal c.

(** The class [\d]. *)
Definition isdecimal (c : char) : bool :=
  match to_decimal c with Some _ => true | None => false end.

(** [str.isdigit] on one character. *)
Definition isdigit (c : char) : bool :=
  if c <? 0x80 then (0x30 <=? c) && (c <=? 0x39) else unicode_isdigit c.

(** [int(d)] for a string of one character [d]: the value of a decimal
    digit; anything else (white space, a sign, an underscore, a letter) is
    not a literal. *)
Definition int_of_char (d : char) : result Z :=
  match to_decimal d with
  | Some v => Ok v
  | None =>
      Raise (mk_exn ValueError
               (lit "invalid literal for int() with base 10: " ++ [d]))
  end.

(** ** [utils.validate_cnp] *)

(** The class [[1-8]]. *)
Definition one_to_eight (c : char) : bool := (0x31 <=? c) && (c <=? 0x38).

(** [r"^[1-8]\d{12}$"] *)
Definition cnp_pattern : regex :=
  [Plain Bol; Plain (Chr one_to_eight)]
  ++ repeat (Plain (Chr isdecimal)) 12
  ++ [Plain Eol].

Definition control_weights : list Z := [2; 7; 9; 1; 4; 6; 3; 5; 8; 2; 7; 9]%Z.

Definition validate_cnp (cnp : str) : result bool :=
  if negb (truthy (PStr cnp))
     || match re_match cnp_pattern cnp with Some _ => false | None => true end
  then Ok false
  else
    match mapM int_of_char cnp with
    | Raise e => if isinstance e ValueError then Ok false else Raise e
    | Ok cnp_digits =>
        terms <- mapM (fun i => d <- index cnp_digits i ;;
                                w <- index control_weights i ;;
                                Ok (d * w)%Z)
                      (map Z.of_nat (seq 0 12)) ;;
        let control_sum := fold_left Z.add terms 0%Z in
        let control_digit := (control_sum mod 11)%Z in
        let control_digit :=
          if (control_digit =? 10)%Z then 1%Z else control_digit in
        last <- index cnp_digits (-1) ;;
        Ok (last =? control_digit)%Z
    end.

(** ** [azure_services.process_id_document] *)

(** One turn of [for document in result.documents]. *)
Definition id_document_step (extracted_data : dict) (doc : document)
  : result dict :=
  first_name <- get_field_value (dict_get (fields doc) (lit "FirstName")) ;;
  let extracted_data :=
    setitem extracted_data (lit "first_name") (PStr first_name) in
  last_name <- get_field_value (dict_get (fields doc) (lit "LastName")) ;;
  let extracted_data :=
    setitem extracted_data (lit "last_name") (PStr last_name) in
  cnp_raw <- get_field_value (dict_get (fields doc) (lit "PersonalNumber")) ;;
  Ok (setitem extracted_data (lit "cnp") (PStr (filter isdigit cnp_raw))).

Fixpoint id_document_loop (extracted_data : dict) (docs : list document)
  : result dict :=
  match docs with
  | [] => Ok extracted_data
  | doc :: rest =>
      extracted_data <- id_document_step extracted_data doc ;;
      id_document_loop extracted_data rest
  end.

(** The body of the [try]. *)
Definition process_id_document_body (w : world)
  (document_bytes : list Byte.byte) : io dict :=
  _ <~ call EvNewClient (new_client w) ;;
  result <~ call (EvAnalyze "prebuilt-idDocument" document_bytes)
                 (begin_analyze_document w "prebuilt-idDocument" document_bytes) ;;
  lift (id_document_loop [] (documents result)).

Definition error_result (e : exn) : io dict :=
  ret [(lit "error", PStr (exn_msg e))].

Definition process_id_document (w : world) (document_bytes : list Byte.byte)
  : io dict :=
  try_except (process_id_document_body w document_bytes) error_result.

(** ** [azure_services.clean_text_with_openai] *)

Definition clean_prompt (text : str) : list message :=
  [(lit "system",
    lit "You are an AI assistant that helps people clean and format text.");
   (lit "user",
    lit "Please clean the following OCR-extracted text by removing any extraneous characters, "
    ++ lit "correcting grammatical errors, and ensuring proper punctuation while maintaining the original context and meaning."
    ++ [nl; nl] ++ lit "Text:" ++ [nl] ++ text)].

(** [response.choices[0].message['content'].strip()] *)
Definition first_content (response : list (option str)) : result str :=
  c <- index response 0 ;;
  call_strip (match c with Some s => PStr s | None => PNone end).

Definition clean_text_with_openai (w : world) (text : str) : io str :=
  try_except
    (response <~ call (EvChat (clean_prompt text))
                      (chat_completion_create w (clean_prompt text)) ;;
     cleaned <~ lift (first_content response) ;;
     ret (remove_code_blocks cleaned))
    (fun e =>
       raise (runtime_error
                (lit "Error cleaning text with OpenAI: " ++ exn_msg e))).

(** ** [azure_services.extract_fields_with_openai] *)

Definition extract_prompt (cleaned_text : str) : list message :=
  [(lit "system",
    lit "You are an AI assistant that extracts specific information from text.");
   (lit "user",
    lit "From the following text, extract the summary in Romanian Language only, first name, last name, and CNP. "
    ++ lit "Return the results strictly in JSON format with the keys 'summary', 'first_name', 'last_name', and 'cnp'. "
    ++ lit "Do not include any additional text, explanations, or formatting. Do not use code blocks."
    ++ [nl; nl] ++ lit "Text:" ++ [nl] ++ cleaned_text)].

(** The [try] body up to and including the assignments to [content]. *)
Definition extract_content (w : world) (cleaned_text : str) : io str :=
  response <~ call (EvChat (extract_prompt cleaned_text))
                   (chat_completion_create w (extract_prompt cleaned_text)) ;;
  content <~ lift (first_content response) ;;
  ret (remove_code_blocks content).

(** The rest of the [try] body, [content] being bound. *)
Definition extract_parse (w : world) (content : str)
  : io (str * str * str * str) :=
  if negb (startswith content (lit "{") && endswith content (lit "}"))
  then raise (runtime_error (lit "OpenAI response is not valid JSON."))
  else
    metadata <~ call (EvJsonLoads content) (json_loads w content) ;;
    summary <~ lift (v <- call_get metadata (lit "summary") (PStr []) ;;
                     call_strip v) ;;
    first_name <~ lift (v <- call_get metadata (lit "first_name") (PStr []) ;;
                        call_strip v) ;;
    last_name <~ lift (v <- call_get metadata (lit "last_name") (PStr []) ;;
                       call_strip v) ;;
    cnp <~ lift (v <- call_get metadata (lit "cnp") (PStr []) ;;
                 call_strip v) ;;
    ret (summary, first_name, last_name, cnp).

(** The two [except] clauses, tried in order.  The first one logs
    [content]: when the exception came before [content] was assigned,
    that read raises in the handler itself (with the message of
    Python 3.11 and later). *)
Definition extract_handler {A} (content : option str) (e : exn) : io A :=
  if isinstance e JSONDecodeError then
    match content with
    | Some _ =>
        raise (runtime_error
                 (lit "Error parsing JSON from OpenAI response: " ++ exn_msg e))
    | None =>
        raise (mk_exn UnboundLocalError
                 (lit "cannot access local variable 'content' where it is not associated with a value"))
    end
  else
    raise (runtime_error
             (lit "Error extracting fields with OpenAI: " ++ exn_msg e)).

Definition extract_fields_with_openai (w : world) (cleaned_text : str)
  : io (str * str * str * str) :=
  match extract_content w cleaned_text with
  | (tr, Raise e) => try_except (tr, Raise e) (extract_handler None)
  | (tr, Ok content) =>
      try_except (bind (tr, Ok content) (extract_parse w))
                 (extract_handler (Some content))
  end.

(** ** [azure_services.process_handwritten_document] *)

(** The body of the [try]. *)
Definition process_handwritten_document_body (w : world)
  (document_bytes : list Byte.byte) : io dict :=
  _ <~ call EvNewClient (new_client w) ;;
  result <~ call (EvAnalyze "prebuilt-read" document_bytes)
                 (begin_analyze_document w "prebuilt-read" document_bytes) ;;
  let ocr_text := join [nl] (List.concat (pages result)) in
  cleaned_text <~ clean_text_with_openai w ocr_text ;;
  '(summary, first_name, last_name, cnp) <~
     extract_fields_with_openai w cleaned_text ;;
  ret [(lit "extracted_text", PStr cleaned_text);
       (lit "summary", PStr summary);
       (lit "first_name", PStr first_name);
       (lit "last_name", PStr last_name);
       (lit "cnp", PStr cnp)].

Definition process_handwritten_document (w : world)
  (document_bytes : list Byte.byte) : io dict :=
  try_except (process_handwritten_document_body w document_bytes) error_result.

End Pipeline.

(** ** Computations over any kind of call *)

(** The calls made, in order, and how the computation ended; [io] is the
    instance for the calls of the pipelines. *)
Definition act (E A : Type) : Type := (list E * result A)%type.

Definition act_ret {E A} (a : A) : act E A := ([], Ok a).
Definition act_raise {E A} (e : exn) : act E A := ([], Raise e).
Definition act_lift {E A} (r : result A) : act E A := ([], r).
Definition act_call {E A} (ev : E) (r : result A) : act E A := ([ev], r).

Definition act_bind {E A B} (m : act E A) (f : A -> act E B) : act E B :=
  match m with
  | (tr, Ok a) => let '(tr', r) := f a in (tr ++ tr', r)
  | (tr, Raise e) => (tr, Raise e)
  end.

(** [try: m  except Exception as e: h e] *)
Definition act_try {E A} (m : act E A) (h : exn -> act E A) : act E A :=
  match m with
  | (tr, Raise e) => let '(tr', r) := h e in (tr ++ tr', r)
  | ok => ok
  end.

(** [try: m  finally: f]: [f] runs on every path, and an exception of
    [f] replaces the outcome of [m]. *)
Definition act_finally {E A} (m : act E A) (f : act E unit) : act E A :=
  match m, f with
  | (tr, r), (tr', Ok _) => (tr ++ tr', r)
  | (tr, _), (tr', Raise e) => (tr ++ tr', Raise e)
  end.

(** A computation seen from a caller that makes other calls too. *)
Definition act_map {E F A} (inj : E -> F) (m : act E A) : act F A :=
  (map inj (fst m), snd m).

Notation "x <<- m ;; k" := (act_bind m (fun x => k))
  (at level 61, m at next level, right associativity) : py_scope.

(** ** [database.py] *)

(** The environment variables read at import; [None] when unset.
    [DRIVER] has a default. *)
Record db_env : Type := {
  DATABASE_SERVER : option str;
  DATABASE_NAME : option str;
  DATABASE_USER : option str;
  DATABASE_PASSWORD : option str;
  DRIVER : str
}.

(** What the ODBC driver answers: [pyodbc.connect], and on the
    connection [cursor()], [cursor.execute(query, params)], [commit()]
    and [close()]. *)
Record db_world : Type := {
  env : db_env;
  db_connect : str -> result unit;
  db_cursor : result unit;
  db_execute : str -> list str -> result unit;
  db_commit : result unit;
  db_close : result unit
}.

Inductive db_event : Type :=
| DbConnect (connection_string : str)
| DbCursor
| DbExecute (query : str) (params : list str)
| DbCommit
| DbClose.

(** A value of the environment inside an f-string. *)
Definition env_str (v : option str) : str :=
  match v with Some s => s | None => lit "None" end.

Definition connection_string (e : db_env) : str :=
  lit "DRIVER={" ++ DRIVER e ++ lit "};"
  ++ lit "SERVER=" ++ env_str (DATABASE_SERVER e) ++ lit ";"
  ++ lit "DATABASE=" ++ env_str (DATABASE_NAME e) ++ lit ";"
  ++ lit "UID=" ++ env_str (DATABASE_USER e) ++ lit ";"
  ++ lit "PWD=" ++ env_str (DATABASE_PASSWORD e) ++ lit ";"
  ++ lit "Encrypt=yes;"
  ++ lit "TrustServerCertificate=no;"
  ++ lit "Connection Timeout=30;".

(** Both [except] clauses of [get_db_connection] raise the same error. *)
Definition get_db_connection (w : db_world) : act db_event unit :=
  act_try
    (act_call (DbConnect (connection_string (env w)))
              (db_connect w (connection_string (env w))))
    (fun e =>
       act_raise (runtime_error
                    (lit "Error connecting to the database: " ++ exn_msg e))).

(** Reading the local [conn] before it was assigned. *)
Definition unbound_conn : exn :=
  mk_exn UnboundLocalError
    (lit "cannot access local variable 'conn' where it is not associated with a value").

Definition id_data_query : str :=
  [nl]
  ++ lit "        INSERT INTO id_data (first_name, last_name, cnp, created_at)"
  ++ [nl] ++ lit "        VALUES (?, ?, ?, GETDATE());" ++ [nl]
  ++ lit "        ".

(** The [finally] clause closes [conn]; when [get_db_connection] raised,
    [conn] was never assigned and reading it raises. *)
Definition save_id_data (w : db_world) (first_name last_name cnp : str)
  : act db_event unit :=
  let connecting := get_db_connection w in
  act_finally
    (act_try
       (conn <<- connecting ;;
        cursor <<- act_call DbCursor (db_cursor w) ;;
        _ <<- act_call (DbExecute id_data_query [first_name; last_name; cnp])
                (db_execute w id_data_query [first_name; last_name; cnp]) ;;
        act_call DbCommit (db_commit w))
       (fun e =>
          act_raise (runtime_error
                       (lit "Error saving ID data to the database: "
                        ++ exn_msg e))))
    (match snd connecting with
     | Ok _ => act_call DbClose (db_close w)
     | Raise _ => act_raise unbound_conn
     end).

Definition processed_text_query : str :=
  [nl]
  ++ lit "        INSERT INTO processed_text (extracted_text, summary, first_name, last_name, cnp, created_at)"
  ++ [nl] ++ lit "        VALUES (?, ?, ?, ?, ?, GETDATE());" ++ [nl]
  ++ lit "        ".

Definition save_processed_text (w : db_world)
  (extracted_text summary first_name last_name cnp : str)
  : act db_event unit :=
  let connecting := get_db_connection w in
  act_finally
    (act_try
       (conn <<- connecting ;;
        cursor <<- act_call DbCursor (db_cursor w) ;;
        _ <<- act_call
                (DbExecute processed_text_query
                   [extracted_text; summary; first_name; last_name; cnp])
                (db_execute w processed_text_query
                   [extracted_text; summary; first_name; last_name; cnp]) ;;
        act_call DbCommit (db_commit w))
       (fun e =>
          act_raise (runtime_error
                       (lit "Error saving processed text data to the database: "
                        ++ exn_msg e))))
    (match snd connecting with
     | Ok _ => act_call DbClose (db_close w)
     | Raise _ => act_raise unbound_conn
     end).

(** ** [utils.validate_and_prepare_file] *)

(** An uploaded file: [file.name], and what [file.read()] returns. *)
Record upload : Type := { name : str; data : list Byte.byte }.

(** A decoded image: [image.format] ([None] when the decoder sets none)
    and the pixels. *)
Record image : Type := { format : option str; raster : list Byte.byte }.

(** What the imaging library answers: [Image.open(file)];
    [image.thumbnail(size)], which replaces the pixels of the image and
    keeps its other attributes; [image.save(stream, format=f)] followed by
    reading the stream back from its start. *)
Record imaging : Type := {
  image_open : upload -> result image;
  image_thumbnail : image -> nat * nat -> result (list Byte.byte);
  image_save : image -> option str -> result (list Byte.byte)
}.

Inductive file_event : Type :=
| FileRead
| ImageOpen
| ImageThumbnail (size : nat * nat)
| ImageSave (format : option str).

(** [str.lower()] on an ASCII character. *)
Definition ascii_lower (c : char) : char :=
  if (0x41 <=? c) && (c <=? 0x5A) then c + 0x20 else c.

(** [s.lower()]: each character is replaced by its lower-case form;
    outside ASCII that form is given by the Unicode database, which may
    look at the position of the character in [s] (the final sigma) and
    may give several characters. *)
Fixpoint lower_from (unicode_lower : str -> nat -> str) (whole : str)
  (i : nat) (s : str) : str :=
  match s with
  | [] => []
  | c :: s' =>
      (if c <? 0x80 then [ascii_lower c] else unicode_lower whole i)
      ++ lower_from unicode_lower whole (S i) s'
  end.

Definition lower (unicode_lower : str -> nat -> str) (s : str) : str :=
  lower_from unicode_lower s 0 s.

(** [x in l] for strings or [None]. *)
Definition format_in (x : option str) (l : list str) : bool :=
  match x with
  | Some s => existsb (str_eqb s) l
  | None => false
  end.

Definition validate_and_prepare_file (unicode_lower : str -> nat -> str)
  (lib : imaging) (file : upload) : act file_event (list Byte.byte) :=
  act_try
    (if endswith (lower unicode_lower (name file)) (lit ".pdf") then
       act_call FileRead (Ok (data file))
     else
       image <<- act_call ImageOpen (image_open lib file) ;;
       if negb (format_in (format image) [lit "JPEG"; lit "PNG"]) then
         act_raise
           (mk_exn ValueError
              (lit "Unsupported image format. Please upload a JPEG, PNG, or PDF file."))
       else
         let max_resolution := (2000, 2000)%nat in
         pixels <<- act_call (ImageThumbnail max_resolution)
                      (image_thumbnail lib image max_resolution) ;;
         let image := {| format := format image; raster := pixels |} in
         act_call (ImageSave (format image))
                  (image_save lib image (format image)))
    (fun e =>
       act_raise (runtime_error
                    (lit "Error validating or preparing file: " ++ exn_msg e))).

(** ** The page: [utils.show_validation_error],
       [utils.display_data_preview] and the two steps of [main.py] *)

(** The text of an f-string before it is rendered: literal text, a value
    formatted with an empty specification, a value formatted with
    [.2f]. *)
Inductive piece : Type :=
| Txt (s : str)
| Val (v : pyval)
| Fixed2 (v : pyval).

Inductive st_call : Type := st_error | st_success | st_info | st_write.

(** What the page shows and asks. *)
Inductive ui_event : Type :=
| St (c : st_call) (text : list piece)
| StButton (label : str).

Definition show_validation_error (message : str) : act ui_event unit :=
  act_call (St st_error [Txt ([0x274C; 0x20] ++ message)]) (Ok tt).

(** [format(v, ".2f")] is defined on numbers only. *)
Definition check_fixed2 (v : pyval) : result unit :=
  match v with
  | PInt _ | PBool _ => Ok tt
  | PStr _ =>
      Raise (mk_exn ValueError
               (lit "Unknown format code 'f' for object of type 'str'"))
  | _ =>
      Raise (mk_exn TypeError
               (lit "unsupported format string passed to " ++ type_name v
                ++ lit ".__format__"))
  end.

(** [isinstance(value, dict) and "value" in value and "confidence" in
    value] *)
Definition has_confidence (value : pyval) : bool :=
  match value with
  | PDict d =>
      match lookup d (lit "value"), lookup d (lit "confidence") with
      | Some _, Some _ => true
      | _, _ => false
      end
  | _ => false
  end.

Fixpoint preview_items (items : list (str * pyval)) : act ui_event unit :=
  match items with
  | [] => act_ret tt
  | (key, value) :: rest =>
      _ <<- (if has_confidence value then
               match value with
               | PDict d =>
                   _ <<- act_lift
                           (check_fixed2 (dict_get d (lit "confidence"))) ;;
                   act_call
                     (St st_write
                        [Txt (lit "**" ++ key ++ lit ":** ");
                         Val (dict_get d (lit "value"));
                         Txt (lit " (Confidence: ");
                         Fixed2 (dict_get d (lit "confidence"));
                         Txt (lit ")")])
                     (Ok tt)
               | _ => act_ret tt
               end
             else
               act_call
                 (St st_write [Txt (lit "**" ++ key ++ lit ":** "); Val value])
                 (Ok tt)) ;;
      preview_items rest
  end.

Definition display_data_preview (data : pyval) : act ui_event unit :=
  match data with
  | PDict d => preview_items d
  | _ => act_call (St st_write [Txt (lit "No data to display")]) (Ok tt)
  end.

(** Everything the page does. *)
Inductive app_event : Type :=
| File (e : file_event)
| Service (e : event)
| Db (e : db_event)
| Ui (e : ui_event).

Section Application.

Variable unicode_decimal : char -> option Z.
Variable unicode_isdigit : char -> bool.
Variable unicode_lower : str -> nat -> str.
Variable lib : imaging.
Variable w : world.
Variable dbw : db_world.

Definition st (c : st_call) (text : list piece) : act app_event unit :=
  act_call (Ui (St c text)) (Ok tt).

(** [data.get(key, "").strip()] *)
Definition get_stripped (data : dict) (key : str) : act app_event str :=
  act_lift (call_strip (dict_get_default data key (PStr []))).

(** The body of [if uploaded_id_file:]; [save_clicked] is what
    [st.button] answers. *)
Definition step1_id_card (uploaded_id_file : upload) (save_clicked : bool)
  : act app_event unit :=
  act_try
    (doc_bytes <<- act_map File
                     (validate_and_prepare_file unicode_lower lib
                        uploaded_id_file) ;;
     extracted_id_data <<- act_map Service
                             (process_id_document unicode_isdigit w doc_bytes) ;;
     match lookup extracted_id_data (lit "error") with
     | Some err =>
         st st_error [Txt (lit "Error processing ID document: "); Val err]
     | None =>
         _ <<- st st_success [Txt (lit "ID Data extracted successfully!")] ;;
         _ <<- act_map Ui (display_data_preview (PDict extracted_id_data)) ;;
         first_name <<- get_stripped extracted_id_data (lit "first_name") ;;
         last_name <<- get_stripped extracted_id_data (lit "last_name") ;;
         cnp <<- get_stripped extracted_id_data (lit "cnp") ;;
         _ <<- st st_write [Txt (lit "**Extracted CNP:** " ++ cnp)] ;;
         if negb (truthy (PStr cnp)) then
           st st_error
             [Txt (lit "Personal number (CNP) not found in the ID document.")]
         else
           valid <<- act_lift (validate_cnp unicode_decimal cnp) ;;
           if negb valid then
             act_map Ui
               (show_validation_error
                  (lit "Invalid CNP format. Please verify the ID card."))
           else
             _ <<- st st_info [Txt (lit "Validated CNP: " ++ cnp)] ;;
             clicked <<- act_call
                           (Ui (StButton (lit "Save ID Data to Database")))
                           (Ok save_clicked) ;;
             if clicked then
               act_try
                 (_ <<- act_map Db (save_id_data dbw first_name last_name cnp) ;;
                  st st_success
                    [Txt (lit "ID Data saved to database with CNP: " ++ cnp)])
                 (fun e =>
                    st st_error [Txt (lit "Error saving ID data: " ++ exn_msg e)])
             else act_ret tt
     end)
    (fun e =>
       st st_error [Txt (lit "Error processing the ID card: " ++ exn_msg e)]).

(** The body of [if uploaded_text_file:]. *)
Definition step2_handwritten (uploaded_text_file : upload)
  (save_clicked : bool) : act app_event unit :=
  act_try
    (doc_bytes <<- act_map File
                     (validate_and_prepare_file unicode_lower lib
                        uploaded_text_file) ;;
     processed_text_data <<- act_map Service
                               (process_handwritten_document w doc_bytes) ;;
     match lookup processed_text_data (lit "error") with
     | Some err =>
         st st_error
           [Txt (lit "Error processing handwritten document: "); Val err]
     | None =>
         let shown key := dict_get_default processed_text_data key (PStr []) in
         _ <<- st st_success
                 [Txt (lit "Handwritten text processed successfully!")] ;;
         _ <<- st st_write
                 [Txt (lit "**Extracted Text:** ");
                  Val (shown (lit "extracted_text"))] ;;
         _ <<- st st_write
                 [Txt (lit "**Summary:** "); Val (shown (lit "summary"))] ;;
         _ <<- st st_write
                 [Txt (lit "**First Name:** "); Val (shown (lit "first_name"))] ;;
         _ <<- st st_write
                 [Txt (lit "**Last Name:** "); Val (shown (lit "last_name"))] ;;
         _ <<- st st_write [Txt (lit "**CNP:** "); Val (shown (lit "cnp"))] ;;
         extracted_text <<- get_stripped processed_text_data
                              (lit "extracted_text") ;;
         summary <<- get_stripped processed_text_data (lit "summary") ;;
         first_name <<- get_stripped processed_text_data (lit "first_name") ;;
         last_name <<- get_stripped processed_text_data (lit "last_name") ;;
         cnp <<- get_stripped processed_text_data (lit "cnp") ;;
         (* [cnp and not validate_cnp(cnp)] *)
         invalid <<- (if truthy (PStr cnp) then
                        valid <<- act_lift (validate_cnp unicode_decimal cnp) ;;
                        act_ret (negb valid)
                      else act_ret false) ;;
         if invalid then
           act_map Ui
             (show_validation_error
                (lit "Invalid CNP format extracted from handwritten text."))
         else
           clicked <<- act_call
                         (Ui (StButton
                                (lit "Save Handwritten Data to Database")))
                         (Ok save_clicked) ;;
           if clicked then
             act_try
               (_ <<- act_map Db
                        (save_processed_text dbw extracted_text summary
                           first_name last_name cnp) ;;
                st st_success
                  [Txt (lit "Handwritten data saved to database successfully!")])
               (fun e =>
                  st st_error
                    [Txt (lit "Error saving handwritten data: " ++ exn_msg e)])
           else act_ret tt
     end)
    (fun e =>
       st st_error
         [Txt (lit "Error processing the handwritten document: "
               ++ exn_msg e)]).

End Application.

(** * Specification *)

(** ** What a match is, and which match the matcher picks *)

Definition is_nil {A} (l : list A) : bool :=
  match l with [] => true | _ => false end.

(** Item [a] may consume [t] when [rest] follows. *)
Definition atom_ok (a : atom) (bos : bool) (t rest : str) : Prop :=
  match a with
  | Bol => t = [] /\ bos = true
  | Eol => t = [] /\ at_eol rest = true
  | Chr p => exists c, t = [c] /\ p c = true
  | Star p | LazyStar p => forallb p t = true
  end.

(** [ts] splits a prefix of [s] among the items of [r]. *)
Fixpoint Matches (r : regex) (bos : bool) (s : str) (ts : list str) : Prop :=
  match r, ts with
  | [], [] => True
  | i :: r', t :: ts' =>
      exists rest,
        s = t ++ rest /\ atom_ok (atom_of i) bos t rest
        /\ Matches r' (bos && is_nil t) rest ts'
  | _, _ => False
  end.

(** The order in which alternatives are tried: at the first repetition
    where two splits differ, a greedy one prefers the longer text and a
    lazy one the shorter. *)
Fixpoint prefers (r : regex) (ts ts' : list str) : Prop :=
  match r, ts, ts' with
  | i :: r', t :: ts1, t' :: ts1' =>
      match atom_of i with
      | Star _ =>
          (length t' < length t)%nat
          \/ (length t' = length t /\ prefers r' ts1 ts1')
      | LazyStar _ =>
          (length t < length t')%nat
          \/ (length t = length t' /\ prefers r' ts1 ts1')
      | _ => prefers r' ts1 ts1'
      end
  | _, _, _ => True
  end.

(** ** Fenced blocks *)

Definition singles (l : str) : list str := map (fun c => [c]) l.

Definition fence_tail : regex :=
  [Plain (Star isspace); Plain (Chr is_nl); Capture (LazyStar any_char);
   Plain (Chr is_nl)]
  ++ lits "```".

(** Both patterns of [remove_code_blocks] are an opening literal followed
    by the same tail. *)
Definition fence_pattern (opening : str) : regex :=
  map (fun c => Plain (Chr (N.eqb c))) opening ++ fence_tail.

(** [t] holds a fenced block: the opening literal, white space up to a
    newline, the inner text, and a newline before the closing fence. *)
Definition fenced (opening t pre ws inner post : str) : Prop :=
  t = pre ++ opening ++ ws ++ nl :: inner ++ nl :: lit "```" ++ post
  /\ forallb isspace ws = true.

(** The block the search prefers: the leftmost opening fence, then the
    longest run of white space, then the nearest closing fence. *)
Definition block_order (pre ws inner pre' ws' inner' : str) : Prop :=
  (length pre < length pre')%nat
  \/ (length pre = length pre'
      /\ ((length ws' < length ws)%nat
          \/ (length ws' = length ws /\ (length inner <= length inner')%nat))).

Definition first_fenced (opening t pre ws inner post : str) : Prop :=
  fenced opening t pre ws inner post
  /\ forall pre' ws' inner' post',
       fenced opening t pre' ws' inner' post' ->
       block_order pre ws inner pre' ws' inner'.

(** A text holds the closing fence: a newline followed by three
    backquotes. *)
Definition has_closing (u : str) : Prop :=
  exists a b, u = a ++ nl :: lit "```" ++ b.

(** ** The checksum *)

(** The checksum in the words of the specification: the first twelve
    digits times the weights, summed, modulo 11, with 10 remapped to 1. *)
Definition weighted_sum (d : list Z) : Z :=
  fold_right Z.add 0%Z
    (map (fun p => (fst p * snd p)%Z) (combine (firstn 12 d) control_weights)).

Definition checksum_spec (d : list Z) : Z :=
  let r := (weighted_sum d mod 11)%Z in
  if (r =? 10)%Z then 1%Z else r.

(** The format as the specification glosses it: 13 characters, the first
    one of 1-8, the other twelve decimal digits. *)
Definition cnp_shape (unicode_decimal : char -> option Z) (cnp : str)
  : bool :=
  match cnp with
  | c0 :: rest =>
      one_to_eight c0 && (length rest =? 12)%nat
      && forallb (isdecimal unicode_decimal) rest
  | [] => false
  end.

(** A database without decimal digits or digits outside ASCII, for running
    the model on ASCII inputs. *)
Definition ascii_decimal : char -> option Z := fun _ => None.
Definition ascii_isdigit : char -> bool := fun _ => false.

(** ** Field readings *)

(** The ['value'] entry of a mapping, the [.value] attribute of another
    object. *)
Definition value_of (field : pyval) : option pyval :=
  match field with
  | PDict d => lookup d (lit "value")
  | PObj attrs => lookup attrs (lit "value")
  | _ => None
  end.

Definition is_str (v : pyval) : bool :=
  match v with PStr _ => true | _ => false end.

(** The reading in the words of the specification: the value trimmed if
    present and truthy, the empty string otherwise. *)
Definition read_spec (field : pyval) : str :=
  if truthy field then
    match value_of field with
    | Some (PStr s) => if truthy (PStr s) then strip s else []
    | _ => []
    end
  else [].

(** ** Readings of an ID document *)

(** [r] is [s] with every character that is not a digit removed and the
    others kept in order. *)
Inductive digits_kept (isdigit : char -> bool) : str -> str -> Prop :=
| dk_nil : digits_kept isdigit [] []
| dk_keep c s r :
    isdigit c = true -> digits_kept isdigit s r ->
    digits_kept isdigit (c :: s) (c :: r)
| dk_drop c s r :
    isdigit c = false -> digits_kept isdigit s r ->
    digits_kept isdigit (c :: s) r.

(** A world whose analysis recognises [docs] and nothing else happens. *)
Definition id_world (docs : list document) : world :=
  {| new_client := Ok tt;
     begin_analyze_document :=
       fun _ _ => Ok {| documents := docs; pages := [] |};
     chat_completion_create := fun _ => Ok [];
     json_loads := fun _ => Raise (mk_exn JSONDecodeError []) |}.

(** A recognised card with the three fields as field objects. *)
Definition id_card (first last number : string) : document :=
  {| fields :=
       [(lit "FirstName", PObj [(lit "value", PStr (lit first))]);
        (lit "LastName", PObj [(lit "value", PStr (lit last))]);
        (lit "PersonalNumber", PObj [(lit "value", PStr (lit number))])] |}.

(** The mapping read from one document. *)
Definition reads (unicode_isdigit : char -> bool) (doc : document)
  (d : dict) : Prop :=
  exists first_name last_name cnp_raw,
    get_field_value (dict_get (fields doc) (lit "FirstName")) = Ok first_name
    /\ get_field_value (dict_get (fields doc) (lit "LastName")) = Ok last_name
    /\ get_field_value (dict_get (fields doc) (lit "PersonalNumber"))
       = Ok cnp_raw
    /\ d = [(lit "first_name", PStr first_name);
            (lit "last_name", PStr last_name);
            (lit "cnp", PStr (filter (isdigit unicode_isdigit) cnp_raw))].

Definition loop_state (acc : dict) : Prop :=
  acc = []
  \/ exists a b c,
       acc = [(lit "first_name", a); (lit "last_name", b); (lit "cnp", c)].

(** ** Outcomes of the extraction stage *)

(** [content.startswith("{") and content.endswith("}")] *)
Definition shape_ok (content : str) : bool :=
  startswith content (lit "{") && endswith content (lit "}").

Definition shape_error_msg : str :=
  lit "Error extracting fields with OpenAI: OpenAI response is not valid JSON.".

Definition parse_error_prefix : str :=
  lit "Error parsing JSON from OpenAI response: ".

(** A world whose completions ignore the format instruction. *)
Definition prose_world : world :=
  {| new_client := Ok tt;
     begin_analyze_document :=
       fun _ _ => Ok {| documents := []; pages := [[lit "Ion Pop"]] |};
     chat_completion_create := fun _ => Ok [Some (lit "Sure, here it is.")];
     json_loads := fun _ => Raise (mk_exn JSONDecodeError []) |}.

(** ** The steps of a save function *)

(** The calls on an open connection, up to the first that fails. *)
Definition insert_steps (w : db_world) (query : str) (params : list str)
  : act db_event unit :=
  match db_cursor w with
  | Raise e => ([DbCursor], Raise e)
  | Ok _ =>
      match db_execute w query params with
      | Raise e => ([DbCursor; DbExecute query params], Raise e)
      | Ok _ => ([DbCursor; DbExecute query params; DbCommit], db_commit w)
      end
  end.

(** What a save function does, step by step. *)
Definition save_run (w : db_world) (query : str) (params : list str)
  (prefix : str) : act db_event unit :=
  let cs := connection_string (env w) in
  match db_connect w cs with
  | Raise _ => ([DbConnect cs], Raise unbound_conn)
  | Ok _ =>
      let '(tr, r) := insert_steps w query params in
      (DbConnect cs :: tr ++ [DbClose],
       match db_close w with
       | Raise e => Raise e
       | Ok _ =>
           match r with
           | Ok _ => Ok tt
           | Raise e => Raise (runtime_error (prefix ++ exn_msg e))
           end
       end)
  end.

(** ** Sample databases *)

(** A database on which every call succeeds. *)
Definition healthy_db : db_world :=
  {| env := {| DATABASE_SERVER := Some (lit "srv"); DATABASE_NAME := None;
               DATABASE_USER := Some (lit "u"); DATABASE_PASSWORD := None;
               DRIVER := lit "ODBC Driver 18 for SQL Server" |};
     db_connect := fun _ => Ok tt;
     db_cursor := Ok tt;
     db_execute := fun _ _ => Ok tt;
     db_commit := Ok tt;
     db_close := Ok tt |}.

(** A database that cannot be reached. *)
Definition unreachable_db : db_world :=
  {| env := env healthy_db;
     db_connect := fun _ => Raise (mk_exn OtherError (lit "timeout"));
     db_cursor := Ok tt;
     db_execute := fun _ _ => Ok tt;
     db_commit := Ok tt;
     db_close := Ok tt |}.

(** A database whose connection fails to close. *)
Definition unclosable_db : db_world :=
  {| env := env healthy_db;
     db_connect := fun _ => Ok tt;
     db_cursor := Ok tt;
     db_execute := fun _ _ => Ok tt;
     db_commit := Ok tt;
     db_close := Raise (mk_exn OtherError (lit "link lost")) |}.

(** A database that rejects the insert. *)
Definition rejecting_db : db_world :=
  {| env := env healthy_db;
     db_connect := fun _ => Ok tt;
     db_cursor := Ok tt;
     db_execute := fun _ _ => Raise (mk_exn OtherError (lit "duplicate key"));
     db_commit := Ok tt;
     db_close := Ok tt |}.

(** ** Sample uploads *)

(** A lower-casing that leaves characters outside ASCII as they are. *)
Definition identity_lower : str -> nat -> str :=
  fun whole i => match nth_error whole i with Some c => [c] | None => [] end.

(** An imaging library that decodes every upload as a GIF. *)
Definition gif_imaging : imaging :=
  {| image_open := fun f => Ok {| format := Some (lit "GIF"); raster := data f |};
     image_thumbnail := fun img _ => Ok (raster img);
     image_save := fun img _ => Ok (raster img) |}.

(** An imaging library that decodes every upload as a PNG and shrinks
    it to nothing. *)
Definition png_imaging : imaging :=
  {| image_open := fun f => Ok {| format := Some (lit "PNG"); raster := data f |};
     image_thumbnail := fun img _ => Ok [];
     image_save := fun img _ => Ok (raster img) |}.

(** ** Valid codes *)

(** The digits of a string, a character that is no digit counting 0. *)
Definition digit_values (unicode_decimal : char -> option Z) (s : str)
  : list Z :=
  map (fun c => match to_decimal unicode_decimal c with
                | Some v => v
                | None => 0%Z
                end) s.

(** A valid code: the required format, and a last digit equal to the
    checksum of the first twelve. *)
Definition valid_cnp (unicode_decimal : char -> option Z) (cnp : str) : bool :=
  cnp_shape unicode_decimal cnp
  && (nth 12 (digit_values unicode_decimal cnp) 0
      =? checksum_spec (digit_values unicode_decimal cnp))%Z.

(** An ASCII digit. *)
Definition ascii_digit (c : char) : bool := (0x30 <=? c) && (c <=? 0x39).

(** The first twelve characters of a code of the required format. *)
Definition prefix_shape (unicode_decimal : char -> option Z) (prefix : str)
  : bool :=
  match prefix with
  | c0 :: rest =>
      one_to_eight c0 && (length rest =? 11)%nat
      && forallb (isdecimal unicode_decimal) rest
  | [] => false
  end.

(** ** The envelope of the extraction stage *)

(** The value of a key of the decoded envelope: trimmed, and the empty
    string when the key is missing. *)
Definition envelope_field (d : dict) (k : str) : str :=
  match lookup d k with
  | Some (PStr s) => strip s
  | _ => []
  end.

Definition envelope_keys : list str :=
  [lit "summary"; lit "first_name"; lit "last_name"; lit "cnp"].

(** A world in which the completion call fails while decoding its own
    answer. *)
Definition garbled_world : world :=
  {| new_client := Ok tt;
     begin_analyze_document :=
       fun _ _ => Ok {| documents := []; pages := [[lit "Ion Pop"]] |};
     chat_completion_create :=
       fun _ => Raise (mk_exn JSONDecodeError (lit "Expecting value"));
     json_loads := fun _ => Raise (mk_exn JSONDecodeError []) |}.

(** A world whose extraction answers with the envelope [d]. *)
Definition envelope_world (d : dict) : world :=
  {| new_client := Ok tt;
     begin_analyze_document :=
       fun _ _ => Ok {| documents := []; pages := [[lit "Ion Pop"]] |};
     chat_completion_create := fun _ => Ok [Some (lit "{}")];
     json_loads := fun _ => Ok (PDict d) |}.

(** ** What the page does to the database *)

(** The calls on the database driver among all the calls of a step. *)
Definition db_calls (tr : list app_event) : list db_event :=
  flat_map (fun e => match e with Db d => [d] | _ => [] end) tr.

(** The calls on the services among all the calls of a step. *)
Definition service_calls (tr : list app_event) : list event :=
  flat_map (fun e => match e with Service d => [d] | _ => [] end) tr.

(** * Proofs *)

(** ** The matcher *)

Lemma app_eq_length {A} (a a' b b' : list A) :
  a ++ b = a' ++ b' -> length a = length a' -> a = a' /\ b = b'.
Proof.
  revert a'. induction a as [|x a IH]; intros [|y a'] E L; simpl in *;
    try discriminate; auto.
  injection E as -> E. injection L as L.
  destruct (IH _ E L) as [-> ->]. auto.
Qed.

Lemma greedy_none p k s : forall bos,
  greedy p k bos s = None ->
  forall t' rest', s = t' ++ rest' -> forallb p t' = true ->
    k (bos && is_nil t') rest' = None.
Proof.
  induction s as [|c s IH]; intros bos G t' rest' E F; simpl in G.
  - destruct t'; [|discriminate]. simpl in E. subst rest'.
    rewrite andb_true_r. destruct (k bos []); [discriminate | reflexivity].
  - destruct (p c) eqn:Pc.
    + destruct (greedy p k false s) as [[t1 ts1]|] eqn:G1; [discriminate|].
      destruct t' as [|c' t1'].
      * simpl in E. subst rest'. rewrite andb_true_r.
        destruct (k bos (c :: s)); [discriminate | reflexivity].
      * simpl in E. injection E as -> E. simpl in F.
        apply andb_prop in F as [_ F]. rewrite andb_false_r.
        exact (IH false G1 t1' rest' E F).
    + destruct t' as [|c' t1'].
      * simpl in E. subst rest'. rewrite andb_true_r.
        destruct (k bos (c :: s)); [discriminate | reflexivity].
      * simpl in E. injection E as -> E. simpl in F. rewrite Pc in F.
        discriminate.
Qed.

Lemma greedy_some p k s : forall bos t ts,
  greedy p k bos s = Some (t, ts) ->
  exists rest,
    s = t ++ rest /\ forallb p t = true /\ k (bos && is_nil t) rest = Some ts
    /\ forall t' rest', s = t' ++ rest' -> forallb p t' = true ->
         (length t < length t')%nat -> k false rest' = None.
Proof.
  assert (Stop : forall bos s0 t ts,
             option_map (pair (@nil char)) (k bos s0) = Some (t, ts) ->
             t = [] /\ k bos s0 = Some ts).
  { intros bos s0 t ts H. destruct (k bos s0); simpl in H; [|discriminate].
    injection H as <- <-. auto. }
  induction s as [|c s IH]; intros bos t ts G; simpl in G.
  - apply Stop in G as [-> G]. exists []. rewrite andb_true_r.
    repeat split; auto.
    intros [|c' t'] rest' E _ L; [simpl in L; lia | discriminate].
  - destruct (p c) eqn:Pc.
    + destruct (greedy p k false s) as [[t1 ts1]|] eqn:G1.
      * injection G as <- <-.
        destruct (IH _ _ _ G1) as (rest & E & F & K & Max).
        exists rest. simpl. rewrite Pc, andb_false_r. repeat split; auto.
        { now rewrite E. }
        intros [|c' t'] rest' E' F' L; [simpl in L; lia|].
        simpl in E'. injection E' as -> E'. simpl in F'.
        apply andb_prop in F' as [_ F']. simpl in L.
        apply (Max t' rest' E' F'). lia.
      * apply Stop in G as [-> G]. exists (c :: s). rewrite andb_true_r.
        repeat split; auto.
        intros [|c' t'] rest' E' F' L; [simpl in L; lia|].
        simpl in E'. injection E' as -> E'. simpl in F'.
        apply andb_prop in F' as [_ F'].
        exact (greedy_none p k s false G1 t' rest' E' F').
    + apply Stop in G as [-> G]. exists (c :: s). rewrite andb_true_r.
      repeat split; auto.
      intros [|c' t'] rest' E' F' L; [simpl in L; lia|].
      simpl in E'. injection E' as -> E'. simpl in F'. rewrite Pc in F'.
      discriminate.
Qed.

Lemma lazy_none p k s : forall bos,
  lazy p k bos s = None ->
  forall t' rest', s = t' ++ rest' -> forallb p t' = true ->
    k (bos && is_nil t') rest' = None.
Proof.
  induction s as [|c s IH]; intros bos G t' rest' E F; simpl in G.
  - destruct t'; [|discriminate]. simpl in E. subst rest'.
    rewrite andb_true_r. destruct (k bos []); [discriminate | reflexivity].
  - destruct (k bos (c :: s)) eqn:K; [discriminate|].
    destruct t' as [|c' t1'].
    + simpl in E. subst rest'. now rewrite andb_true_r.
    + simpl in E. injection E as -> E. simpl in F.
      apply andb_prop in F as [Pc F]. rewrite Pc in G.
      destruct (lazy p k false s) as [[t1 ts1]|] eqn:G1; [discriminate|].
      rewrite andb_false_r. exact (IH false G1 t1' rest' E F).
Qed.

Lemma lazy_some p k s : forall bos t ts,
  lazy p k bos s = Some (t, ts) ->
  exists rest,
    s = t ++ rest /\ forallb p t = true /\ k (bos && is_nil t) rest = Some ts
    /\ forall t' rest', s = t' ++ rest' -> (length t' < length t)%nat ->
         k (bos && is_nil t') rest' = None.
Proof.
  induction s as [|c s IH]; intros bos t ts G; simpl in G.
  - destruct (k bos []) eqn:K; [|discriminate]. injection G as <- <-.
    exists []. rewrite andb_true_r. repeat split; auto.
    intros t' rest' _ L. simpl in L. lia.
  - destruct (k bos (c :: s)) eqn:K.
    + injection G as <- <-. exists (c :: s). rewrite andb_true_r.
      repeat split; auto. intros t' rest' _ L. simpl in L. lia.
    + destruct (p c) eqn:Pc; [|discriminate].
      destruct (lazy p k false s) as [[t1 ts1]|] eqn:G1; [|discriminate].
      injection G as <- <-.
      destruct (IH _ _ _ G1) as (rest & E & F & K1 & Min).
      exists rest. simpl. rewrite Pc, andb_false_r. repeat split; auto.
      { now rewrite E. }
      intros [|c' t'] rest' E' L.
      * simpl in E'. subst rest'. now rewrite andb_true_r.
      * simpl in E'. injection E' as -> E'. simpl in L.
        rewrite andb_false_r.
        specialize (Min t' rest' E' ltac:(lia)). exact Min.
Qed.

(** The matcher is sound, finds the preferred split, and fails only when
    there is no split at all. *)
Lemma match_here_spec (r : regex) :
  (forall bos s ts, match_here r bos s = Some ts ->
     Matches r bos s ts
     /\ forall ts', Matches r bos s ts' -> prefers r ts ts')
  /\ (forall bos s, match_here r bos s = None ->
        forall ts', ~ Matches r bos s ts').
Proof.
  induction r as [|i r [IHs IHn]].
  - split.
    + intros bos s ts H. injection H as <-. simpl. auto.
    + discriminate.
  - split.
    + intros bos s ts H. simpl in H. destruct (atom_of i) eqn:A.
      * (* ^ *)
        destruct bos; [|discriminate].
        destruct (match_here r true s) as [ts1|] eqn:M; [|discriminate].
        injection H as <-. destruct (IHs _ _ _ M) as [M1 P1]. split.
        { simpl. exists s. rewrite A. simpl. auto. }
        intros [|t' ts1'] M'; simpl in M'; [contradiction|].
        destruct M' as (rest & E & Ok' & M'). rewrite A in Ok'.
        destruct Ok' as [-> _]. simpl in E, M'. subst rest.
        simpl. rewrite A. auto.
      * (* $ *)
        destruct (at_eol s) eqn:Es; [|discriminate].
        destruct (match_here r bos s) as [ts1|] eqn:M; [|discriminate].
        injection H as <-. destruct (IHs _ _ _ M) as [M1 P1]. split.
        { simpl. exists s. rewrite A, andb_true_r. simpl. auto. }
        intros [|t' ts1'] M'; simpl in M'; [contradiction|].
        destruct M' as (rest & E & Ok' & M'). rewrite A in Ok'.
        destruct Ok' as [-> _]. simpl in E. rewrite andb_true_r in M'.
        subst rest. simpl. rewrite A. auto.
      * (* one character *)
        destruct s as [|c s]; [discriminate|].
        destruct (p c) eqn:Pc; [|discriminate].
        destruct (match_here r false s) as [ts1|] eqn:M; [|discriminate].
        injection H as <-. destruct (IHs _ _ _ M) as [M1 P1]. split.
        { simpl. exists s. rewrite A, andb_false_r. simpl. eauto. }
        intros [|t' ts1'] M'; simpl in M'; [contradiction|].
        destruct M' as (rest & E & Ok' & M'). rewrite A in Ok'.
        destruct Ok' as (c' & -> & _). simpl in E. injection E as <- <-.
        rewrite andb_false_r in M'. simpl. rewrite A. auto.
      * (* greedy repetition *)
        destruct (greedy p (match_here r) bos s) as [[t ts1]|] eqn:G;
          [|discriminate].
        injection H as <-.
        destruct (greedy_some _ _ _ _ _ _ G) as (rest & E & F & K & Max).
        destruct (IHs _ _ _ K) as [M1 P1]. split.
        { simpl. exists rest. rewrite A. simpl. auto. }
        intros [|t' ts1'] M'; simpl in M'; [contradiction|].
        destruct M' as (rest' & E' & Ok' & M'). rewrite A in Ok'.
        simpl in Ok'. simpl. rewrite A.
        destruct (Nat.lt_trichotomy (length t') (length t)) as [L|[L|L]];
          [now left | | exfalso].
        { right. split; [assumption|].
          rewrite E in E'. symmetry in E'.
          destruct (app_eq_length _ _ _ _ E' L) as [-> ->]. auto. }
        { specialize (Max t' rest' E' Ok' L).
          destruct t'; [simpl in L; lia|]. rewrite andb_false_r in M'.
          exact (IHn _ _ Max _ M'). }
      * (* lazy repetition *)
        destruct (lazy p (match_here r) bos s) as [[t ts1]|] eqn:G;
          [|discriminate].
        injection H as <-.
        destruct (lazy_some _ _ _ _ _ _ G) as (rest & E & F & K & Min).
        destruct (IHs _ _ _ K) as [M1 P1]. split.
        { simpl. exists rest. rewrite A. simpl. auto. }
        intros [|t' ts1'] M'; simpl in M'; [contradiction|].
        destruct M' as (rest' & E' & Ok' & M'). rewrite A in Ok'.
        simpl in Ok'. simpl. rewrite A.
        destruct (Nat.lt_trichotomy (length t) (length t')) as [L|[L|L]];
          [now left | | exfalso].
        { right. split; [assumption|].
          rewrite E in E'.
          destruct (app_eq_length _ _ _ _ E' L) as [<- <-]. auto. }
        { exact (IHn _ _ (Min t' rest' E' L) _ M'). }
    + intros bos s H [|t' ts1'] M'; simpl in M'; [contradiction|].
      destruct M' as (rest' & E' & Ok' & M'). simpl in H.
      destruct (atom_of i) eqn:A; simpl in Ok'.
      * destruct Ok' as [-> ->]. simpl in E', M'. subst rest'.
        destruct (match_here r true s) eqn:M; [discriminate|].
        exact (IHn _ _ M _ M').
      * destruct Ok' as [-> Es]. simpl in E'. subst rest'.
        rewrite andb_true_r in M'. rewrite Es in H.
        destruct (match_here r bos s) eqn:M; [discriminate|].
        exact (IHn _ _ M _ M').
      * destruct Ok' as (c & -> & Pc). subst s. simpl in H.
        rewrite Pc in H. rewrite andb_false_r in M'.
        destruct (match_here r false rest') eqn:M; [discriminate|].
        exact (IHn _ _ M _ M').
      * destruct (greedy p (match_here r) bos s) as [[t ts1]|] eqn:G;
          [discriminate|].
        exact (IHn _ _ (greedy_none _ _ _ _ G t' rest' E' Ok') _ M').
      * destruct (lazy p (match_here r) bos s) as [[t ts1]|] eqn:G;
          [discriminate|].
        exact (IHn _ _ (lazy_none _ _ _ _ G t' rest' E' Ok') _ M').
Qed.

Lemma match_here_complete r bos s ts' :
  Matches r bos s ts' -> exists ts, match_here r bos s = Some ts.
Proof.
  intros M. destruct (match_here r bos s) as [ts|] eqn:H; [eauto|].
  destruct (proj2 (match_here_spec r) _ _ H _ M).
Qed.

(** The search stops at the leftmost position where the pattern matches. *)
Lemma search_from_some r s : forall bos ts,
  search_from r bos s = Some ts ->
  exists pre s',
    s = pre ++ s' /\ match_here r (bos && is_nil pre) s' = Some ts
    /\ forall pre' s'', s = pre' ++ s'' -> (length pre' < length pre)%nat ->
         match_here r (bos && is_nil pre') s'' = None.
Proof.
  induction s as [|c s IH]; intros bos ts H; simpl in H.
  - destruct (match_here r bos []) eqn:M; [|discriminate].
    injection H as <-. exists [], []. rewrite andb_true_r.
    repeat split; auto. intros ? ? _ L. simpl in L. lia.
  - destruct (match_here r bos (c :: s)) eqn:M.
    + injection H as <-. exists [], (c :: s). rewrite andb_true_r.
      repeat split; auto. intros ? ? _ L. simpl in L. lia.
    + destruct (IH _ _ H) as (pre & s' & E & M' & Min).
      exists (c :: pre), s'. rewrite andb_false_r. simpl in M'.
      repeat split; auto.
      { now rewrite E. }
      intros [|c' pre'] s'' E' L.
      * simpl in E'. subst s''. now rewrite andb_true_r.
      * simpl in E'. injection E' as -> E'. simpl in L.
        rewrite andb_false_r. apply (Min pre' s'' E'). lia.
Qed.

Lemma search_from_none r s : forall bos,
  search_from r bos s = None ->
  forall pre' s'', s = pre' ++ s'' ->
    match_here r (bos && is_nil pre') s'' = None.
Proof.
  induction s as [|c s IH]; intros bos H pre' s'' E; simpl in H.
  - destruct pre'; [|discriminate]. simpl in E. subst s''.
    rewrite andb_true_r. destruct (match_here r bos []); [discriminate|auto].
  - destruct (match_here r bos (c :: s)) eqn:M; [discriminate|].
    destruct pre' as [|c' pre'].
    + simpl in E. subst s''. now rewrite andb_true_r.
    + simpl in E. injection E as -> E. rewrite andb_false_r.
      exact (IH false H pre' s'' E).
Qed.

(** ** Trimming *)

Lemma lstrip_split s :
  exists ws, s = ws ++ lstrip s /\ forallb isspace ws = true.
Proof.
  induction s as [|c s (ws & E & F)]; simpl.
  - exists []. auto.
  - destruct (isspace c) eqn:C.
    + exists (c :: ws). simpl. rewrite C, F. split; [now f_equal | reflexivity].
    + exists []. auto.
Qed.

Lemma lstrip_head s :
  lstrip s = [] \/ exists c u, lstrip s = c :: u /\ isspace c = false.
Proof.
  induction s as [|c s IH]; simpl; auto.
  destruct (isspace c) eqn:C; eauto.
Qed.

Lemma lstrip_snoc x c :
  isspace c = false -> lstrip (x ++ [c]) = lstrip x ++ [c].
Proof.
  intros C. induction x as [|d x IH]; simpl.
  - now rewrite C.
  - destruct (isspace d); auto.
Qed.

Lemma lstrip_idem s : lstrip (lstrip s) = lstrip s.
Proof.
  destruct (lstrip_head s) as [-> | (c & u & -> & C)]; simpl; auto.
  now rewrite C.
Qed.

Lemma rstrip_idem s : rstrip (rstrip s) = rstrip s.
Proof.
  unfold rstrip. now rewrite rev_involutive, lstrip_idem.
Qed.

Lemma strip_idem s : strip (strip s) = strip s.
Proof.
  unfold strip.
  assert (L : lstrip (rstrip (lstrip s)) = rstrip (lstrip s)).
  { destruct (lstrip_head s) as [-> | (c & u & -> & C)]; [reflexivity|].
    unfold rstrip. simpl rev. rewrite (lstrip_snoc _ _ C), rev_app_distr.
    simpl. now rewrite C. }
  now rewrite L, rstrip_idem.
Qed.

(** Trimming removes a run of white space at each end. *)
Lemma strip_split s :
  exists a b,
    s = a ++ strip s ++ b
    /\ forallb isspace a = true /\ forallb isspace b = true.
Proof.
  destruct (lstrip_split s) as (ws & E & W).
  destruct (lstrip_split (rev (lstrip s))) as (ws2 & E2 & W2).
  exists ws, (rev ws2). unfold strip, rstrip.
  rewrite <- rev_app_distr, <- E2, rev_involutive. repeat split; auto.
  rewrite forallb_forall in *. intros c I. apply W2. now apply in_rev.
Qed.

Lemma strip_infix s : exists a b, s = a ++ strip s ++ b.
Proof. destruct (strip_split s) as (a & b & E & _). eauto. Qed.

(** Trimming does not change which characters of a class disjoint from
    white space a text holds. *)
Lemma filter_strip (p : char -> bool) s :
  (forall c, isspace c = true -> p c = false) ->
  filter p (strip s) = filter p s.
Proof.
  intros D.
  assert (Z : forall ws, forallb isspace ws = true -> filter p ws = []).
  { induction ws as [|c ws IH]; simpl; auto. intros H.
    apply andb_prop in H as [C W]. now rewrite (D c C), IH. }
  destruct (strip_split s) as (a & b & E & A & B).
  rewrite E at 2. rewrite !filter_app, (Z a A), (Z b B), app_nil_r.
  reflexivity.
Qed.

(** ** Fenced blocks *)

Lemma json_block_pattern_eq :
  json_block_pattern = fence_pattern (lit "```json").
Proof. reflexivity. Qed.

Lemma code_block_pattern_eq : code_block_pattern = fence_pattern (lit "```").
Proof. reflexivity. Qed.

Lemma any_char_all s : forallb any_char s = true.
Proof.
  induction s as [|c s IH]; simpl; auto. rewrite IH.
  unfold any_char. now destruct (isspace c).
Qed.

Lemma Matches_opening opening r : forall bos s ts,
  Matches (map (fun c => Plain (Chr (N.eqb c))) opening ++ r) bos s ts <->
  exists s2 ts2,
    s = opening ++ s2 /\ ts = singles opening ++ ts2
    /\ Matches r (bos && is_nil opening) s2 ts2.
Proof.
  induction opening as [|c o IH]; intros bos s ts; simpl.
  - rewrite andb_true_r. split.
    + intros M. exists s, ts. auto.
    + intros (s2 & ts2 & -> & -> & M). exact M.
  - rewrite andb_false_r. split.
    + destruct ts as [|t ts]; [contradiction|].
      intros (rest & E & (c' & -> & C) & M). apply N.eqb_eq in C. subst c'.
      rewrite andb_false_r in M. apply IH in M as (s2 & ts2 & -> & -> & M).
      exists s2, ts2. simpl in E. auto.
    + intros (s2 & ts2 & -> & -> & M). exists (o ++ s2). simpl.
      rewrite andb_false_r. repeat split.
      * exists c. split; auto. apply N.eqb_refl.
      * apply IH. exists s2, ts2. auto.
Qed.

Lemma Matches_fence_tail bos s ts :
  Matches fence_tail bos s ts <->
  exists ws inner post,
    ts = [ws; [nl]; inner; [nl]] ++ singles (lit "```")
    /\ s = ws ++ nl :: inner ++ nl :: lit "```" ++ post
    /\ forallb isspace ws = true.
Proof.
  split.
  - destruct ts as [|ws [|n1 [|inner [|n2 ts]]]]; simpl; try tauto;
      try (intros (? & ? & ? & []); fail);
      try (intros (? & ? & ? & ? & ? & ? & []); fail);
      try (intros (? & ? & ? & ? & ? & ? & ? & ? & ? & []); fail).
    intros (r1 & E1 & W & r2 & E2 & (c1 & -> & C1) & r3 & E3 & _ & r4 & E4
            & (c2 & -> & C2) & M).
    apply N.eqb_eq in C1, C2. subst c1 c2.
    change (Matches (lits "```" ++ []) (bos && is_nil ws && false
                                        && is_nil inner && false) r4 ts) in M.
    apply Matches_opening in M as (post & ts2 & -> & -> & M).
    destruct ts2; [|contradiction].
    exists ws, inner, post. subst. repeat split; auto.
  - intros (ws & inner & post & -> & -> & W).
    simpl. eexists. split; [reflexivity|]. split; [exact W|].
    eexists. split; [reflexivity|]. split; [exists nl; auto|].
    eexists. split; [reflexivity|]. split; [apply any_char_all|].
    eexists. split; [reflexivity|]. split; [exists nl; auto|].
    exists (96 :: 96 :: post). split; [reflexivity|].
    split; [exists 96; auto|].
    exists (96 :: post). split; [reflexivity|]. split; [exists 96; auto|].
    exists post. split; [reflexivity|]. split; [exists 96; auto|]. exact I.
Qed.

Lemma Matches_fence opening bos s ts :
  Matches (fence_pattern opening) bos s ts <->
  exists ws inner post,
    ts = singles opening ++ [ws; [nl]; inner; [nl]] ++ singles (lit "```")
    /\ s = opening ++ ws ++ nl :: inner ++ nl :: lit "```" ++ post
    /\ forallb isspace ws = true.
Proof.
  unfold fence_pattern. rewrite Matches_opening. split.
  - intros (s2 & ts2 & -> & -> & M).
    apply Matches_fence_tail in M as (ws & inner & post & -> & -> & W).
    exists ws, inner, post. auto.
  - intros (ws & inner & post & -> & -> & W).
    eexists _, _. split; [reflexivity|]. split; [reflexivity|].
    apply Matches_fence_tail. exists ws, inner, post. auto.
Qed.

Lemma group1_fence opening ws n1 inner rest :
  group1 (fence_pattern opening) (singles opening ++ ws :: n1 :: inner :: rest)
  = inner.
Proof.
  unfold group1, fence_pattern. induction opening as [|c o IH]; simpl; auto.
Qed.

Lemma prefers_fence opening ws n1 inner rest ws' n1' inner' rest' :
  prefers (fence_pattern opening)
          (singles opening ++ ws :: n1 :: inner :: rest)
          (singles opening ++ ws' :: n1' :: inner' :: rest') ->
  (length ws' < length ws)%nat
  \/ (length ws' = length ws /\ (length inner <= length inner')%nat).
Proof.
  unfold fence_pattern. induction opening as [|c o IH]; simpl; auto.
  intros [L | [L [L' | [L' _]]]]; [left | right; split | right; split]; lia.
Qed.

Lemma fence_search_some opening t m :
  re_search (fence_pattern opening) t = Some m ->
  exists pre ws inner post,
    first_fenced opening t pre ws inner post
    /\ group1 (fence_pattern opening) m = inner.
Proof.
  intros H. apply search_from_some in H as (pre & s' & E & M & Min).
  destruct (proj1 (match_here_spec _) _ _ _ M) as [M1 P1].
  apply Matches_fence in M1 as (ws & inner & post & Em & Es & W).
  exists pre, ws, inner, post. split; [split|].
  - split; [now rewrite E, Es | exact W].
  - intros pre' ws' inner' post' [E' W'].
    destruct (Nat.lt_trichotomy (length pre) (length pre')) as [L|[L|L]].
    + now left.
    + right. split; [exact L|].
      rewrite E in E'. destruct (app_eq_length _ _ _ _ E' L) as [<- Es'].
      assert (M' : Matches (fence_pattern opening) (true && is_nil pre) s'
                     (singles opening
                      ++ [ws'; [nl]; inner'; [nl]] ++ singles (lit "```"))).
      { apply Matches_fence. exists ws', inner', post'. auto. }
      specialize (P1 _ M'). rewrite Em in P1.
      exact (prefers_fence opening ws [nl] inner ([nl] :: singles (lit "```"))
               ws' [nl] inner' ([nl] :: singles (lit "```")) P1).
    + exfalso. specialize (Min pre' _ E' L).
      refine (proj2 (match_here_spec _) _ _ Min _ _).
      apply Matches_fence. exists ws', inner', post'. eauto.
  - rewrite Em. apply group1_fence.
Qed.

Lemma fence_search_none opening t :
  re_search (fence_pattern opening) t = None ->
  forall pre ws inner post, ~ fenced opening t pre ws inner post.
Proof.
  intros H pre ws inner post [E W].
  refine (proj2 (match_here_spec _) _ _ (search_from_none _ _ _ H pre _ E) _ _).
  apply Matches_fence. exists ws, inner, post. eauto.
Qed.

(** Bring nested concatenations to right-nested form. *)
Ltac app_norm :=
  repeat (rewrite <- app_assoc || rewrite <- app_comm_cons); simpl.

Lemma fenced_has_closing opening u pre ws inner post :
  fenced opening u pre ws inner post -> has_closing u.
Proof.
  intros [-> _]. exists (pre ++ opening ++ ws ++ nl :: inner), post.
  now app_norm.
Qed.

Lemma first_fenced_inner_open opening t pre ws inner post :
  first_fenced opening t pre ws inner post -> ~ has_closing inner.
Proof.
  intros [[E W] Best] (a & b & Ei).
  assert (F : fenced opening t pre ws a (b ++ nl :: lit "```" ++ post)).
  { split; [|exact W]. rewrite E, Ei. now app_norm. }
  specialize (Best _ _ _ _ F). unfold block_order in Best.
  rewrite Ei, length_app in Best. simpl in Best. lia.
Qed.

Lemma strip_no_closing u : ~ has_closing u -> ~ has_closing (strip u).
Proof.
  intros N (a & b & E). apply N.
  destruct (strip_infix u) as (x & y & Eu).
  exists (x ++ a), (b ++ y). rewrite Eu at 1. rewrite E. now app_norm.
Qed.

Lemma remove_code_blocks_no_closing u :
  ~ has_closing u -> remove_code_blocks u = strip u.
Proof.
  intros N. unfold remove_code_blocks.
  destruct (re_search json_block_pattern u) as [m|] eqn:J.
  { rewrite json_block_pattern_eq in J.
    apply fence_search_some in J as (? & ? & ? & ? & [F _] & _).
    destruct (N (fenced_has_closing _ _ _ _ _ _ F)). }
  destruct (re_search code_block_pattern u) as [m|] eqn:G; [|reflexivity].
  rewrite code_block_pattern_eq in G.
  apply fence_search_some in G as (? & ? & ? & ? & [F _] & _).
  destruct (N (fenced_has_closing _ _ _ _ _ _ F)).
Qed.

Lemma fenced_in_strip opening t pre ws inner post :
  fenced opening (strip t) pre ws inner post ->
  exists pre' post', fenced opening t pre' ws inner post'.
Proof.
  intros [E W]. destruct (strip_infix t) as (a & b & Et).
  exists (a ++ pre), (post ++ b). split; [|exact W].
  rewrite Et at 1. rewrite E. now app_norm.
Qed.

(** ** The text normaliser *)

(** C5. [remove_code_blocks] looks for a fenced block opened by
    [```json] first and, when there is one, returns the trimmed inner
    text of the first such block, whatever else the text holds; failing
    that it looks for a block opened by a bare [```] and returns the
    trimmed inner text of the first one; failing both it returns the
    whole text trimmed. *)
Theorem remove_code_blocks_spec (text : str) :
  (exists pre ws inner post,
      first_fenced (lit "```json") text pre ws inner post
      /\ remove_code_blocks text = strip inner)
  \/ ((forall pre ws inner post,
          ~ fenced (lit "```json") text pre ws inner post)
      /\ exists pre ws inner post,
           first_fenced (lit "```") text pre ws inner post
           /\ remove_code_blocks text = strip inner)
  \/ ((forall pre ws inner post,
          ~ fenced (lit "```json") text pre ws inner post)
      /\ (forall pre ws inner post,
             ~ fenced (lit "```") text pre ws inner post)
      /\ remove_code_blocks text = strip text).
Proof.
  unfold remove_code_blocks.
  destruct (re_search json_block_pattern text) as [m|] eqn:J.
  { left. rewrite json_block_pattern_eq in *.
    apply fence_search_some in J as (pre & ws & inner & post & F & G).
    exists pre, ws, inner, post. now rewrite G. }
  right. rewrite json_block_pattern_eq in J.
  pose proof (fence_search_none _ _ J) as NJ.
  destruct (re_search code_block_pattern text) as [m|] eqn:C.
  { left. split; [exact NJ|]. rewrite code_block_pattern_eq in *.
    apply fence_search_some in C as (pre & ws & inner & post & F & G).
    exists pre, ws, inner, post. now rewrite G. }
  right. rewrite code_block_pattern_eq in C.
  split; [exact NJ|]. split; [exact (fence_search_none _ _ C) | reflexivity].
Qed.

(** C6. Normalising an already normalised text changes nothing. *)
Theorem remove_code_blocks_idempotent (t : str) :
  remove_code_blocks (remove_code_blocks t) = remove_code_blocks t.
Proof.
  assert (Inner : forall opening m,
             re_search (fence_pattern opening) t = Some m ->
             remove_code_blocks (strip (group1 (fence_pattern opening) m))
             = strip (group1 (fence_pattern opening) m)).
  { intros opening m H.
    apply fence_search_some in H as (pre & ws & inner & post & F & ->).
    rewrite remove_code_blocks_no_closing, strip_idem; auto.
    apply strip_no_closing. exact (first_fenced_inner_open _ _ _ _ _ _ F). }
  unfold remove_code_blocks at 2 3.
  rewrite json_block_pattern_eq, code_block_pattern_eq.
  destruct (re_search (fence_pattern (lit "```json")) t) as [m|] eqn:J;
    [exact (Inner _ _ J)|].
  destruct (re_search (fence_pattern (lit "```")) t) as [m|] eqn:C;
    [exact (Inner _ _ C)|].
  unfold remove_code_blocks.
  destruct (re_search json_block_pattern (strip t)) as [m|] eqn:J'.
  { rewrite json_block_pattern_eq in J'.
    apply fence_search_some in J' as (? & ? & ? & ? & [F _] & _).
    apply fenced_in_strip in F as (? & ? & F).
    destruct (fence_search_none _ _ J _ _ _ _ F). }
  destruct (re_search code_block_pattern (strip t)) as [m|] eqn:C'.
  { rewrite code_block_pattern_eq in C'.
    apply fence_search_some in C' as (? & ? & ? & ? & [F _] & _).
    apply fenced_in_strip in F as (? & ? & F).
    destruct (fence_search_none _ _ C _ _ _ _ F). }
  apply strip_idem.
Qed.

(** ** The checksum validator *)

Lemma Matches_repeat_chr p n r : forall bos s ts,
  Matches (repeat (Plain (Chr p)) n ++ r) bos s ts <->
  exists l s2 ts2,
    length l = n /\ forallb p l = true /\ s = l ++ s2
    /\ ts = singles l ++ ts2 /\ Matches r (bos && is_nil l) s2 ts2.
Proof.
  induction n as [|n IH]; intros bos s ts; simpl.
  - split.
    + intros M. exists [], s, ts. rewrite andb_true_r. auto.
    + intros (l & s2 & ts2 & L & _ & -> & -> & M).
      destruct l; [|discriminate]. now rewrite andb_true_r in M.
  - split.
    + destruct ts as [|t ts]; [contradiction|].
      intros (rest & E & (c & -> & C) & M). rewrite andb_false_r in M.
      apply IH in M as (l & s2 & ts2 & L & F & -> & -> & M).
      exists (c :: l), s2, ts2. simpl. rewrite C, F, L, andb_false_r.
      simpl in E. auto.
    + intros (l & s2 & ts2 & L & F & -> & -> & M).
      destruct l as [|c l]; [discriminate|]. simpl in *.
      injection L as L. apply andb_prop in F as [C F].
      exists (l ++ s2). rewrite andb_false_r in *. repeat split; eauto.
      apply IH. exists l, s2, ts2. auto.
Qed.

Section Checksum.

Variable unicode_decimal : char -> option Z.

(** The strings the pattern [^[1-8]\d{12}$] accepts under [re.match]: a
    character of 1-8, twelve decimal digits, and the end of the string
    or one last newline. *)
Lemma cnp_pattern_match (cnp : str) :
  re_match (cnp_pattern unicode_decimal) cnp <> None <->
  exists c0 rest tl,
    cnp = c0 :: rest ++ tl /\ one_to_eight c0 = true /\ length rest = 12%nat
    /\ forallb (isdecimal unicode_decimal) rest = true /\ at_eol tl = true.
Proof.
  assert (Shape : forall ts,
            Matches (cnp_pattern unicode_decimal) true cnp ts <->
            exists c0 rest tl,
              ts = [] :: [c0] :: singles rest ++ [[]]
              /\ cnp = c0 :: rest ++ tl /\ one_to_eight c0 = true
              /\ length rest = 12%nat
              /\ forallb (isdecimal unicode_decimal) rest = true
              /\ at_eol tl = true).
  { intros ts. unfold cnp_pattern.
    change ([Plain Bol; Plain (Chr one_to_eight)] ++ ?r)
      with (Plain Bol :: Plain (Chr one_to_eight) :: r).
    split.
    - destruct ts as [|t0 [|t1 ts]]; cbn [Matches atom_of atom_ok];
        try tauto; try (intros (? & ? & ? & []); fail).
      intros (r0 & E0 & [-> _] & r1 & E1 & (c0 & -> & C0) & M).
      apply Matches_repeat_chr in M as (l & s2 & ts2 & L & F & -> & -> & M).
      destruct ts2 as [|t [|? ?]]; cbn [Matches atom_of atom_ok] in M;
        try tauto; try (destruct M as (? & ? & ? & []); fail).
      destruct M as (r2 & E2 & [-> Eol'] & _). simpl in E0, E1, E2. subst.
      exists c0, l, r2. repeat split; auto.
    - intros (c0 & rest & tl & -> & -> & C0 & L & F & E).
      cbn [Matches atom_of atom_ok].
      eexists. split; [reflexivity|]. split; [auto|].
      eexists. split; [reflexivity|]. split; [eauto|].
      apply Matches_repeat_chr. exists rest, tl, [[]].
      repeat split; auto. cbn [Matches atom_of atom_ok]. exists tl. auto. }
  unfold re_match. split.
  - intros H.
    destruct (match_here (cnp_pattern unicode_decimal) true cnp) as [ts|] eqn:M;
      [|congruence].
    apply (proj1 (match_here_spec _)) in M as [M _].
    apply Shape in M as (c0 & rest & tl & _ & H'). eauto.
  - intros (c0 & rest & tl & H').
    destruct (match_here_complete (cnp_pattern unicode_decimal) true cnp
                ([] :: [c0] :: singles rest ++ [[]])) as [ts ->];
      [|discriminate].
    apply Shape. exists c0, rest, tl. tauto.
Qed.

Lemma one_to_eight_isdecimal c :
  one_to_eight c = true -> isdecimal unicode_decimal c = true.
Proof.
  unfold one_to_eight, isdecimal, to_decimal. intros H.
  apply andb_prop in H as [H1 H2]. apply N.leb_le in H1, H2.
  replace (c <? 0x80) with true by (symmetry; apply N.ltb_lt; lia).
  replace (0x30 <=? c) with true by (symmetry; apply N.leb_le; lia).
  replace (c <=? 0x39) with true by (symmetry; apply N.leb_le; lia).
  reflexivity.
Qed.

Lemma mapM_int_of_char_ok (l : str) :
  forallb (isdecimal unicode_decimal) l = true ->
  exists d,
    mapM (int_of_char unicode_decimal) l = Ok d
    /\ map (to_decimal unicode_decimal) l = map Some d
    /\ length d = length l.
Proof.
  induction l as [|c l IH]; simpl; intros F.
  - exists []. auto.
  - apply andb_prop in F as [C F]. destruct (IH F) as (d & -> & E & L).
    unfold isdecimal in C. unfold int_of_char.
    destruct (to_decimal unicode_decimal c) as [v|]; [|discriminate].
    exists (v :: d). simpl. rewrite E, L. auto.
Qed.

Lemma mapM_raise_after {A B} (f : A -> result B) l d x e l' :
  mapM f l = Ok d -> f x = Raise e -> mapM f (l ++ x :: l') = Raise e.
Proof.
  revert d. induction l as [|a l IH]; simpl; intros d H X.
  - now rewrite X.
  - destruct (f a); [|discriminate]. simpl in *.
    destruct (mapM f l) eqn:M; [|discriminate].
    now rewrite (IH _ eq_refl X).
Qed.

(** C1. On a string of 13 characters that the pattern accepts, every
    character is a decimal digit, and [validate_cnp] answers whether the
    last digit equals the checksum of the first twelve: weights
    [2,7,9,1,4,6,3,5,8,2,7,9], sum, modulo 11, 10 remapped to 1.  When the
    sum is 10 modulo 11 the code is accepted exactly if it ends in 1. *)
Theorem validate_cnp_checksum (cnp : str) :
  length cnp = 13%nat ->
  re_match (cnp_pattern unicode_decimal) cnp <> None ->
  exists d,
    map (to_decimal unicode_decimal) cnp = map Some d
    /\ validate_cnp unicode_decimal cnp
       = Ok (nth 12 d 0 =? checksum_spec d)%Z
    /\ ((weighted_sum d mod 11 = 10)%Z ->
        validate_cnp unicode_decimal cnp = Ok (nth 12 d 0 =? 1)%Z).
Proof.
  intros Len M. pose proof M as M0.
  apply cnp_pattern_match in M as (c0 & rest & tl & -> & C0 & L & F & _).
  simpl in Len. rewrite length_app in Len.
  destruct tl; [|simpl in Len; lia]. rewrite app_nil_r in *.
  destruct (mapM_int_of_char_ok (c0 :: rest)) as (d & Md & Ed & Ld).
  { simpl. now rewrite one_to_eight_isdecimal, F. }
  exists d. split; [exact Ed|].
  assert (V : validate_cnp unicode_decimal (c0 :: rest)
              = Ok (nth 12 d 0 =? checksum_spec d)%Z).
  { unfold validate_cnp. rewrite Md.
    destruct (re_match (cnp_pattern unicode_decimal) (c0 :: rest));
      [|congruence].
    simpl in Ld. rewrite L in Ld.
    do 13 (destruct d as [|? d]; [discriminate|]).
    destruct d; [|discriminate].
    cbn -[Z.add Z.mul Z.modulo Z.eqb].
    unfold checksum_spec, weighted_sum.
    cbn -[Z.add Z.mul Z.modulo Z.eqb].
    now rewrite !Z.add_0_r, !Z.add_assoc. }
  split; [exact V|].
  intros R. rewrite V. unfold checksum_spec. now rewrite R.
Qed.

Lemma to_decimal_nl : to_decimal unicode_decimal nl = None.
Proof. reflexivity. Qed.

(** C2. A string the pattern does not accept, and equally a string that
    is not 13 characters of the required classes (the empty string, a
    wrong length, a first character outside 1-8, a character that is not
    a digit, a trailing newline), makes [validate_cnp] return false; no
    exception leaves the function. *)
Theorem validate_cnp_rejects (cnp : str) :
  re_match (cnp_pattern unicode_decimal) cnp = None
  \/ cnp_shape unicode_decimal cnp = false ->
  validate_cnp unicode_decimal cnp = Ok false.
Proof.
  intros H. unfold validate_cnp.
  destruct (re_match (cnp_pattern unicode_decimal) cnp) as [ts|] eqn:M.
  2: { now rewrite orb_true_r. }
  destruct H as [H|H]; [discriminate|].
  assert (M' : re_match (cnp_pattern unicode_decimal) cnp <> None)
    by congruence.
  apply cnp_pattern_match in M' as (c0 & rest & tl & -> & C0 & L & F & E).
  destruct tl as [|c [|? ?]]; try discriminate.
  - rewrite app_nil_r in H. simpl in H. rewrite C0, L, F in H. discriminate.
  - simpl in E. apply N.eqb_eq in E. subst c.
    destruct (mapM_int_of_char_ok (c0 :: rest)) as (d & Md & _).
    { simpl. now rewrite one_to_eight_isdecimal, F. }
    change (c0 :: rest ++ [nl]) with ((c0 :: rest) ++ [nl]).
    erewrite (mapM_raise_after _ _ _ nl _ [] Md).
    2: { unfold int_of_char. rewrite to_decimal_nl. reflexivity. }
    destruct rest; reflexivity.
Qed.

End Checksum.

Lemma validate_cnp_checksum_witness :
  exists d,
    map (to_decimal ascii_decimal) (lit "1008000000001") = map Some d
    /\ validate_cnp ascii_decimal (lit "1008000000001")
       = Ok (nth 12 d 0 =? checksum_spec d)%Z
    /\ ((weighted_sum d mod 11 = 10)%Z ->
        validate_cnp ascii_decimal (lit "1008000000001")
        = Ok (nth 12 d 0 =? 1)%Z).
Proof.
  apply (validate_cnp_checksum ascii_decimal (lit "1008000000001")).
  - reflexivity.
  - vm_compute. discriminate.
Defined.

Lemma validate_cnp_rejects_witness :
  validate_cnp ascii_decimal (lit "1008000000001" ++ [nl]) = Ok false.
Proof.
  apply (validate_cnp_rejects ascii_decimal (lit "1008000000001" ++ [nl])).
  right. reflexivity.
Defined.

(** The remapped case at work: the weighted sum of [100800000000] is 10,
    and the code ending in 1 is accepted, the one ending in 0 is not. *)
Example validate_cnp_remap_accepts :
  weighted_sum [1; 0; 0; 8; 0; 0; 0; 0; 0; 0; 0; 0; 1]%Z = 10%Z
  /\ validate_cnp ascii_decimal (lit "1008000000001") = Ok true
  /\ validate_cnp ascii_decimal (lit "1008000000000") = Ok false.
Proof. repeat split; reflexivity. Qed.

(** A digit outside ASCII counts as its value: with ARABIC-INDIC DIGIT ONE
    (U+0661) known to the database, a code ending in it is accepted. *)
Example validate_cnp_unicode_digit :
  validate_cnp (fun c => if c =? 0x661 then Some 1%Z else None)
    (lit "100800000000" ++ [0x661]) = Ok true.
Proof. reflexivity. Qed.

(** The examples of the specification for the normaliser. *)
Example remove_code_blocks_tagged :
  remove_code_blocks (lit "```json" ++ [nl] ++ lit "{}" ++ [nl] ++ lit "```")
  = lit "{}".
Proof. reflexivity. Qed.

Example remove_code_blocks_generic :
  remove_code_blocks (lit "```" ++ [nl] ++ lit "raw" ++ [nl] ++ lit "```")
  = lit "raw".
Proof. reflexivity. Qed.

Example remove_code_blocks_passthrough :
  remove_code_blocks (lit "  no fences " ++ [nl]) = lit "no fences".
Proof. reflexivity. Qed.

(** When both forms occur, the tagged one is used even if the bare one
    comes first. *)
Example remove_code_blocks_tagged_wins :
  remove_code_blocks
    (lit "```" ++ [nl] ++ lit "a" ++ [nl] ++ lit "```" ++ [nl]
     ++ lit "```json" ++ [nl] ++ lit "b" ++ [nl] ++ lit "```")
  = lit "b".
Proof. reflexivity. Qed.

(** ** The field value reader *)

(** The reader raises exactly on a truthy value that is not a string. *)
Lemma get_field_value_raises_iff (field : pyval) :
  (exists e, get_field_value field = Raise e) <->
  exists v, truthy field = true /\ value_of field = Some v
            /\ truthy v = true /\ is_str v = false.
Proof.
  unfold get_field_value, value_of, hasattr, getattr, dict_get,
    dict_get_default.
  split.
  - intros [e H]. destruct (truthy field) eqn:T; [|discriminate].
    destruct field as [| | | | |d|attrs]; simpl in H; try discriminate.
    + destruct (lookup d (lit "value")) as [v|]; [|discriminate].
      destruct (truthy v) eqn:Tv; [|discriminate].
      exists v. destruct v; try discriminate; auto.
    + destruct (lookup attrs (lit "value")) as [v|]; [|discriminate].
      simpl in H. destruct (truthy v) eqn:Tv; [|discriminate].
      exists v. destruct v; try discriminate; auto.
  - intros (v & T & V & Tv & S). rewrite T.
    destruct field as [| | | | |d|attrs]; try discriminate;
      rewrite V; simpl; rewrite Tv;
      destruct v; try discriminate; simpl; eauto.
Qed.

(** The reading of a field whose value is a string is that string
    trimmed. *)
Lemma get_field_value_of_string field s r :
  value_of field = Some (PStr s) -> get_field_value field = Ok r ->
  r = strip s.
Proof.
  unfold value_of, get_field_value, hasattr, getattr, dict_get,
    dict_get_default.
  destruct field as [| | | | |d|attrs]; try discriminate; intros V;
    rewrite V; simpl.
  - destruct d; [discriminate|].
    destruct s; simpl; intros H; now injection H as <-.
  - destruct s; simpl; intros H; now injection H as <-.
Qed.

(** C7, as the code has it.  A field whose value, when present and
    truthy, is a string is read without an exception: an absent or falsy
    field gives the empty string, a mapping its ['value'] entry trimmed
    if present and truthy, any other object its [.value] attribute
    trimmed if present and truthy, and the empty string otherwise. *)
Theorem get_field_value_total_on_strings (field : pyval) :
  (forall v, value_of field = Some v -> truthy v = true -> is_str v = true) ->
  get_field_value field = Ok (read_spec field).
Proof.
  intros S. unfold get_field_value, read_spec.
  destruct (truthy field) eqn:T; [|reflexivity].
  unfold value_of, hasattr, getattr, dict_get, dict_get_default in *.
  destruct field as [| | | | |d|attrs]; try reflexivity.
  - destruct (lookup d (lit "value")) as [v|]; [|reflexivity].
    specialize (S v eq_refl). destruct (truthy v) eqn:Tv.
    + destruct v; try (now specialize (S eq_refl)). simpl in *.
      now rewrite Tv.
    + destruct v; try reflexivity. simpl in *. now rewrite Tv.
  - destruct (lookup attrs (lit "value")) as [v|]; [|reflexivity].
    specialize (S v eq_refl). simpl. destruct (truthy v) eqn:Tv.
    + destruct v; try (now specialize (S eq_refl)). simpl in *.
      now rewrite Tv.
    + destruct v; try reflexivity. simpl in *. now rewrite Tv.
Qed.

Lemma get_field_value_total_on_strings_witness :
  get_field_value (PDict [(lit "value", PStr (lit "  X "))])
  = Ok (read_spec (PDict [(lit "value", PStr (lit "  X "))])).
Proof.
  apply (get_field_value_total_on_strings
           (PDict [(lit "value", PStr (lit "  X "))])).
  intros v H _. vm_compute in H. injection H as <-. reflexivity.
Defined.

(** The examples of the specification for the reader. *)
Example get_field_value_examples :
  get_field_value PNone = Ok []
  /\ get_field_value (PDict [(lit "value", PStr (lit "  X "))]) = Ok (lit "X")
  /\ get_field_value (PDict [(lit "value", PStr [])]) = Ok []
  /\ get_field_value (PObj [(lit "value", PNone)]) = Ok []
  /\ get_field_value (PObj [(lit "confidence", PInt 1)]) = Ok [].
Proof. repeat split; reflexivity. Qed.

(** C7 fails as stated: a mapping whose ['value'] is the number 5, and
    likewise an object whose [.value] is, makes the reader raise
    [AttributeError] on [.strip()]. *)
Lemma get_field_value_raises_on_number :
  get_field_value (PDict [(lit "value", PInt 5)])
  = Raise (mk_exn AttributeError
             (lit "'int' object has no attribute 'strip'"))
  /\ get_field_value (PObj [(lit "value", PInt 5)])
     = Raise (mk_exn AttributeError
                (lit "'int' object has no attribute 'strip'")).
Proof. split; reflexivity. Qed.

(** ** The ID document extractor *)

Lemma digits_kept_filter isd s r :
  digits_kept isd s r <-> r = filter isd s.
Proof.
  split.
  - induction 1 as [|c s r C _ IH|c s r C _ IH]; simpl;
      rewrite ?C; congruence.
  - intros ->. induction s as [|c s IH]; simpl; [constructor|].
    destruct (isd c) eqn:C; constructor; auto.
Qed.

Section IdDocument.

Variable unicode_isdigit : char -> bool.

Lemma id_document_step_fresh doc d :
  id_document_step unicode_isdigit [] doc = Ok d ->
  reads unicode_isdigit doc d.
Proof.
  unfold id_document_step, reads.
  destruct (get_field_value (dict_get (fields doc) (lit "FirstName")))
    as [fn|]; [|discriminate].
  destruct (get_field_value (dict_get (fields doc) (lit "LastName")))
    as [ln|]; [|discriminate].
  destruct (get_field_value (dict_get (fields doc) (lit "PersonalNumber")))
    as [raw|]; [|discriminate].
  intros H. injection H as <-. exists fn, ln, raw. auto.
Qed.

(** Each turn of the loop overwrites the three entries of the turn
    before. *)
Lemma id_document_step_overwrite a b c doc :
  id_document_step unicode_isdigit
    [(lit "first_name", a); (lit "last_name", b); (lit "cnp", c)] doc
  = id_document_step unicode_isdigit [] doc.
Proof.
  unfold id_document_step.
  destruct (get_field_value (dict_get (fields doc) (lit "FirstName")));
    [|reflexivity].
  destruct (get_field_value (dict_get (fields doc) (lit "LastName")));
    [|reflexivity].
  destruct (get_field_value (dict_get (fields doc) (lit "PersonalNumber")));
    reflexivity.
Qed.

Lemma id_document_step_any acc doc :
  loop_state acc ->
  id_document_step unicode_isdigit acc doc
  = id_document_step unicode_isdigit [] doc.
Proof.
  intros [-> | (a & b & c & ->)]; [reflexivity|].
  apply id_document_step_overwrite.
Qed.

Lemma id_document_loop_last front : forall acc doc d,
  loop_state acc ->
  id_document_loop unicode_isdigit acc (front ++ [doc]) = Ok d ->
  reads unicode_isdigit doc d.
Proof.
  induction front as [|x front IH]; intros acc doc d S H; simpl in H.
  - rewrite (id_document_step_any _ _ S) in H.
    destruct (id_document_step unicode_isdigit [] doc) as [d'|] eqn:E;
      [|discriminate].
    simpl in H. injection H as <-. now apply id_document_step_fresh.
  - rewrite (id_document_step_any _ _ S) in H.
    destruct (id_document_step unicode_isdigit [] x) as [acc'|] eqn:E;
      [|discriminate].
    simpl in H. apply (IH acc' doc d); [|exact H].
    apply id_document_step_fresh in E as (a & b & c & _ & _ & _ & ->).
    right. eauto.
Qed.

(** What [process_id_document] returns: the error mapping of the
    exception the body raised, or what the loop left. *)
Lemma process_id_document_cases w document_bytes :
  exists d,
    snd (process_id_document unicode_isdigit w document_bytes) = Ok d
    /\ ((exists e,
           snd (process_id_document_body unicode_isdigit w document_bytes)
           = Raise e
           /\ d = [(lit "error", PStr (exn_msg e))])
        \/ (exists res,
              new_client w = Ok tt
              /\ begin_analyze_document w "prebuilt-idDocument" document_bytes
                 = Ok res
              /\ id_document_loop unicode_isdigit [] (documents res) = Ok d)).
Proof.
  unfold process_id_document, process_id_document_body, try_except, bind,
    call, lift, error_result, ret.
  destruct (new_client w) as [[]|e1].
  2: { simpl. eexists. split; [reflexivity|]. left. eauto. }
  destruct (begin_analyze_document w "prebuilt-idDocument" document_bytes)
    as [res|e2] eqn:A.
  2: { simpl. eexists. split; [reflexivity|]. left. eauto. }
  destruct (id_document_loop unicode_isdigit [] (documents res))
    as [d'|e3] eqn:L.
  2: { simpl. eexists. split; [reflexivity|]. left. eauto. }
  simpl. exists d'. split; [reflexivity|]. right. exists res. auto.
Qed.

(** A result without an ['error'] entry is what the loop left. *)
Lemma process_id_document_ok w document_bytes d :
  snd (process_id_document unicode_isdigit w document_bytes) = Ok d ->
  lookup d (lit "error") = None ->
  exists res,
    new_client w = Ok tt
    /\ begin_analyze_document w "prebuilt-idDocument" document_bytes = Ok res
    /\ id_document_loop unicode_isdigit [] (documents res) = Ok d.
Proof.
  intros H NE.
  destruct (process_id_document_cases w document_bytes) as (d' & H' & C).
  rewrite H in H'. injection H' as <-.
  destruct C as [(e & _ & ->) | R]; [discriminate | exact R].
Qed.

(** C8. The ['cnp'] entry of a result is the reading of the
    [PersonalNumber] field of the document the result comes from, with
    every character that is not a digit removed and the digits kept in
    their order.  As no white-space character is a digit, it is as well
    the value of that field, before trimming, with every character that
    is not a digit removed. *)
Theorem process_id_document_cnp_digits w document_bytes d v :
  snd (process_id_document unicode_isdigit w document_bytes) = Ok d ->
  lookup d (lit "cnp") = Some v ->
  exists res front doc cnp_raw r,
    begin_analyze_document w "prebuilt-idDocument" document_bytes = Ok res
    /\ documents res = front ++ [doc]
    /\ get_field_value (dict_get (fields doc) (lit "PersonalNumber"))
       = Ok cnp_raw
    /\ v = PStr r
    /\ digits_kept (isdigit unicode_isdigit) cnp_raw r
    /\ ((forall c, isspace c = true -> isdigit unicode_isdigit c = false) ->
        forall s,
          value_of (dict_get (fields doc) (lit "PersonalNumber"))
          = Some (PStr s) ->
          digits_kept (isdigit unicode_isdigit) s r).
Proof.
  intros H V.
  destruct (process_id_document_cases w document_bytes) as (d' & H' & C).
  rewrite H in H'. injection H' as <-.
  destruct C as [(e & _ & ->) | (res & _ & A & L)]; [discriminate|].
  destruct (documents res) as [|x rest] eqn:D.
  { simpl in L. injection L as <-. discriminate. }
  destruct (exists_last (l := x :: rest)) as (front & doc & E);
    [discriminate|].
  rewrite E in L.
  apply id_document_loop_last in L as (fn & ln & raw & _ & _ & R & ->);
    [|now left].
  simpl in V. injection V as <-.
  exists res, front, doc, raw, (filter (isdigit unicode_isdigit) raw).
  repeat split; auto; [congruence | now apply digits_kept_filter |].
  intros Disjoint s Vs. apply digits_kept_filter.
  rewrite (get_field_value_of_string _ _ _ Vs R).
  now apply filter_strip.
Qed.

(** C9, as the code has it.  When one or more documents are recognised
    and the result is not an error, the three entries are the readings
    of [FirstName], [LastName] and [PersonalNumber] of the last document
    recognised, which is the first one when there is only one. *)
Theorem process_id_document_reads_last w document_bytes res front doc d :
  begin_analyze_document w "prebuilt-idDocument" document_bytes = Ok res ->
  documents res = front ++ [doc] ->
  snd (process_id_document unicode_isdigit w document_bytes) = Ok d ->
  lookup d (lit "error") = None ->
  reads unicode_isdigit doc d.
Proof.
  intros A D H NE.
  destruct (process_id_document_ok _ _ _ H NE) as (res' & _ & A' & L).
  rewrite A in A'. injection A' as <-. rewrite D in L.
  apply (id_document_loop_last front [] doc d); [now left | exact L].
Qed.

(** C10. When the analysis succeeds and recognises no document, the
    result is the empty mapping: no ['first_name'], ['last_name'] or
    ['cnp'] entry, and no ['error'] entry either. *)
Theorem process_id_document_no_documents w document_bytes res :
  new_client w = Ok tt ->
  begin_analyze_document w "prebuilt-idDocument" document_bytes = Ok res ->
  documents res = [] ->
  snd (process_id_document unicode_isdigit w document_bytes) = Ok []
  /\ forall k, lookup [] k = None.
Proof.
  intros C A D.
  unfold process_id_document, process_id_document_body, try_except, bind,
    call, lift.
  rewrite C, A, D. simpl. auto.
Qed.

End IdDocument.

Lemma process_id_document_cnp_digits_witness :
  exists res front doc cnp_raw r,
    begin_analyze_document
      (id_world [id_card "Ion" "Pop" "1 9001 01 22 003 1"])
      "prebuilt-idDocument" [] = Ok res
    /\ documents res = front ++ [doc]
    /\ get_field_value (dict_get (fields doc) (lit "PersonalNumber"))
       = Ok cnp_raw
    /\ PStr (lit "1900101220031") = PStr r
    /\ digits_kept (isdigit ascii_isdigit) cnp_raw r
    /\ ((forall c, isspace c = true -> isdigit ascii_isdigit c = false) ->
        forall s,
          value_of (dict_get (fields doc) (lit "PersonalNumber"))
          = Some (PStr s) ->
          digits_kept (isdigit ascii_isdigit) s r).
Proof.
  apply (process_id_document_cnp_digits ascii_isdigit
           (id_world [id_card "Ion" "Pop" "1 9001 01 22 003 1"]) []
           [(lit "first_name", PStr (lit "Ion"));
            (lit "last_name", PStr (lit "Pop"));
            (lit "cnp", PStr (lit "1900101220031"))]
           (PStr (lit "1900101220031"))).
  - reflexivity.
  - reflexivity.
Defined.

Lemma process_id_document_reads_last_witness :
  reads ascii_isdigit (id_card "B" "Y" "2")
    [(lit "first_name", PStr (lit "B")); (lit "last_name", PStr (lit "Y"));
     (lit "cnp", PStr (lit "2"))].
Proof.
  apply (process_id_document_reads_last ascii_isdigit
           (id_world [id_card "A" "X" "1"; id_card "B" "Y" "2"]) []
           {| documents := [id_card "A" "X" "1"; id_card "B" "Y" "2"];
              pages := [] |}
           [id_card "A" "X" "1"] (id_card "B" "Y" "2")).
  - reflexivity.
  - reflexivity.
  - reflexivity.
  - reflexivity.
Defined.

(** No white-space character is an ASCII digit. *)
Lemma ascii_digits_not_space c :
  isspace c = true -> isdigit ascii_isdigit c = false.
Proof.
  unfold isdigit, ascii_isdigit. intros S.
  destruct (c <? 0x80) eqn:A; [|reflexivity].
  destruct ((0x30 <=? c) && (c <=? 0x39)) eqn:D; [|reflexivity].
  apply andb_prop in D as [D1 D2]. apply N.leb_le in D1, D2.
  unfold isspace in S.
  repeat match type of S with
         | (_ || _) = true => apply orb_prop in S as [S|S]
         | (_ && _) = true => apply andb_prop in S as [? S]
         end;
    repeat match goal with
           | H : (_ <=? _) = true |- _ => apply N.leb_le in H
           | H : (_ =? _) = true |- _ => apply N.eqb_eq in H
           end; lia.
Qed.

(** The example of the specification: stray spaces in the personal
    number are dropped. *)
Example process_id_document_example :
  snd (process_id_document ascii_isdigit
         (id_world [id_card " Ion" "Pop " "1 9001 01 22 003 1"]) [])
  = Ok [(lit "first_name", PStr (lit "Ion"));
        (lit "last_name", PStr (lit "Pop"));
        (lit "cnp", PStr (lit "1900101220031"))].
Proof. reflexivity. Qed.

(** C9 fails as stated: with two documents recognised, the result holds
    the readings of the second one, not of the first. *)
Lemma process_id_document_not_first :
  snd (process_id_document ascii_isdigit
         (id_world [id_card "A" "X" "1"; id_card "B" "Y" "2"]) [])
  = Ok [(lit "first_name", PStr (lit "B")); (lit "last_name", PStr (lit "Y"));
        (lit "cnp", PStr (lit "2"))]
  /\ id_document_step ascii_isdigit [] (id_card "A" "X" "1")
     = Ok [(lit "first_name", PStr (lit "A"));
           (lit "last_name", PStr (lit "X")); (lit "cnp", PStr (lit "1"))]
  /\ ~ reads ascii_isdigit (id_card "A" "X" "1")
         [(lit "first_name", PStr (lit "B"));
          (lit "last_name", PStr (lit "Y")); (lit "cnp", PStr (lit "2"))].
Proof.
  split; [reflexivity|]. split; [reflexivity|].
  intros (fn & ln & raw & F & _ & _ & E).
  vm_compute in F. injection F as <-. vm_compute in E. discriminate.
Qed.

Lemma process_id_document_no_documents_witness :
  snd (process_id_document ascii_isdigit (id_world []) []) = Ok []
  /\ forall k, lookup [] k = None.
Proof.
  apply (process_id_document_no_documents ascii_isdigit (id_world []) []
           {| documents := []; pages := [] |}); reflexivity.
Defined.

(** ** The handwritten document pipeline *)

Lemma clean_text_with_openai_trace w text :
  fst (clean_text_with_openai w text) = [EvChat (clean_prompt text)].
Proof.
  unfold clean_text_with_openai, try_except, bind, call, lift, ret, raise.
  destruct (chat_completion_create w (clean_prompt text)) as [response|e];
    [|reflexivity].
  destruct (first_content response); reflexivity.
Qed.

(** An exception of the cleaning stage is a [RuntimeError] whose message
    carries the message of its cause. *)
Lemma clean_text_with_openai_raises w text e :
  snd (clean_text_with_openai w text) = Raise e ->
  exists cause,
    e = runtime_error (lit "Error cleaning text with OpenAI: "
                       ++ exn_msg cause).
Proof.
  unfold clean_text_with_openai, try_except, bind, call, lift, ret, raise.
  destruct (chat_completion_create w (clean_prompt text)) as [response|e1].
  - destruct (first_content response) as [c|e2]; simpl; [discriminate|].
    intros H. injection H as <-. eauto.
  - simpl. intros H. injection H as <-. eauto.
Qed.

(** The extraction stage on a content that fails the shape check. *)
Lemma extract_fields_shape_failure w cleaned_text response raw :
  chat_completion_create w (extract_prompt cleaned_text) = Ok response ->
  first_content response = Ok raw ->
  shape_ok (remove_code_blocks raw) = false ->
  extract_fields_with_openai w cleaned_text
  = ([EvChat (extract_prompt cleaned_text)],
     Raise (runtime_error shape_error_msg)).
Proof.
  intros C F S.
  unfold extract_fields_with_openai, extract_content, bind, call, lift, ret.
  rewrite C, F. simpl. unfold extract_parse.
  unfold shape_ok in S. rewrite S. reflexivity.
Qed.

(** The extraction stage on a content that passes the shape check and
    that [json.loads] rejects. *)
Lemma extract_fields_parse_failure w cleaned_text response raw jde :
  chat_completion_create w (extract_prompt cleaned_text) = Ok response ->
  first_content response = Ok raw ->
  shape_ok (remove_code_blocks raw) = true ->
  json_loads w (remove_code_blocks raw) = Raise jde ->
  isinstance jde JSONDecodeError = true ->
  extract_fields_with_openai w cleaned_text
  = ([EvChat (extract_prompt cleaned_text);
      EvJsonLoads (remove_code_blocks raw)],
     Raise (runtime_error (parse_error_prefix ++ exn_msg jde))).
Proof.
  intros C F S J I.
  unfold extract_fields_with_openai, extract_content, bind, call, lift, ret.
  rewrite C, F. simpl. unfold extract_parse.
  unfold shape_ok in S. rewrite S. simpl. unfold bind, call. rewrite J.
  simpl. unfold extract_handler. rewrite I. reflexivity.
Qed.

Lemma parse_message_not_shape_message m :
  parse_error_prefix ++ m <> shape_error_msg.
Proof. discriminate. Qed.

(** What can leave the extraction stage: a [RuntimeError] wrapping the
    cause or the parse error, or the failed read of [content] in the
    first handler. *)
Lemma extract_fields_with_openai_raises w cleaned_text e :
  snd (extract_fields_with_openai w cleaned_text) = Raise e ->
  (exists cause,
      e = runtime_error (lit "Error extracting fields with OpenAI: "
                         ++ exn_msg cause))
  \/ (exists jde, e = runtime_error (parse_error_prefix ++ exn_msg jde))
  \/ exn_type e = UnboundLocalError.
Proof.
  unfold extract_fields_with_openai.
  destruct (extract_content w cleaned_text) as [tr [content|e0]].
  - unfold try_except.
    destruct (bind (tr, Ok content) (extract_parse w)) as [tr' [r|e1]];
      [discriminate|].
    unfold extract_handler, raise.
    destruct (isinstance e1 JSONDecodeError); simpl; intros H;
      injection H as <-; eauto.
  - unfold try_except, extract_handler, raise.
    destruct (isinstance e0 JSONDecodeError); simpl; intros H;
      injection H as <-; eauto.
Qed.

(** C3. When the completion of the extraction stage, once normalised,
    does not both begin with an opening brace and end with a closing one,
    the stage raises its own error, ["OpenAI response is not valid
    JSON."] wrapped by the stage, without having called [json.loads]; the
    pipeline turns it into an error result and raises nothing; and the
    message differs from that of every JSON parse failure, which starts
    with ["Error parsing JSON from OpenAI response: "]. *)
Theorem shape_failure_is_explicit w cleaned_text response raw :
  chat_completion_create w (extract_prompt cleaned_text) = Ok response ->
  first_content response = Ok raw ->
  shape_ok (remove_code_blocks raw) = false ->
  extract_fields_with_openai w cleaned_text
  = ([EvChat (extract_prompt cleaned_text)],
     Raise (runtime_error shape_error_msg))
  /\ (forall document_bytes res,
        new_client w = Ok tt ->
        begin_analyze_document w "prebuilt-read" document_bytes = Ok res ->
        snd (clean_text_with_openai w (join [nl] (concat (pages res))))
        = Ok cleaned_text ->
        process_handwritten_document w document_bytes
        = ([EvNewClient; EvAnalyze "prebuilt-read" document_bytes;
            EvChat (clean_prompt (join [nl] (concat (pages res))));
            EvChat (extract_prompt cleaned_text)],
           Ok [(lit "error", PStr shape_error_msg)]))
  /\ (forall w' cleaned' response' raw' jde,
        chat_completion_create w' (extract_prompt cleaned') = Ok response' ->
        first_content response' = Ok raw' ->
        shape_ok (remove_code_blocks raw') = true ->
        json_loads w' (remove_code_blocks raw') = Raise jde ->
        isinstance jde JSONDecodeError = true ->
        snd (extract_fields_with_openai w' cleaned')
        = Raise (runtime_error (parse_error_prefix ++ exn_msg jde))
        /\ parse_error_prefix ++ exn_msg jde <> shape_error_msg).
Proof.
  intros C F S.
  pose proof (extract_fields_shape_failure _ _ _ _ C F S) as X.
  split; [exact X|]. split.
  - intros document_bytes res N A Cl.
    unfold process_handwritten_document, process_handwritten_document_body,
      try_except, bind, call, error_result, ret.
    rewrite N, A.
    pose proof (clean_text_with_openai_trace w
                  (join [nl] (concat (pages res)))) as T.
    destruct (clean_text_with_openai w (join [nl] (concat (pages res))))
      as [tr r]. simpl in T, Cl. subst tr r.
    rewrite X. reflexivity.
  - intros w' cleaned' response' raw' jde C' F' S' J I. split.
    + now rewrite (extract_fields_parse_failure _ _ _ _ _ C' F' S' J I).
    + apply parse_message_not_shape_message.
Qed.

Lemma shape_failure_is_explicit_witness :
  extract_fields_with_openai prose_world (lit "Sure, here it is.")
  = ([EvChat (extract_prompt (lit "Sure, here it is."))],
     Raise (runtime_error shape_error_msg))
  /\ process_handwritten_document prose_world []
     = ([EvNewClient; EvAnalyze "prebuilt-read" [];
         EvChat (clean_prompt (lit "Ion Pop"));
         EvChat (extract_prompt (lit "Sure, here it is."))],
        Ok [(lit "error", PStr shape_error_msg)]).
Proof.
  destruct (shape_failure_is_explicit prose_world (lit "Sure, here it is.")
              [Some (lit "Sure, here it is.")] (lit "Sure, here it is.")
              eq_refl eq_refl eq_refl) as (S & P & _).
  split; [exact S|].
  exact (P [] {| documents := []; pages := [[lit "Ion Pop"]] |}
           eq_refl eq_refl eq_refl).
Defined.

(** The example of the specification: a fenced, tagged envelope is
    unwrapped, parsed and its four values trimmed. *)
Example process_handwritten_document_example :
  let envelope :=
    PDict [(lit "summary", PStr (lit "s")); (lit "first_name", PStr (lit "A"));
           (lit "last_name", PStr (lit " B ")); (lit "cnp", PStr (lit "1"))] in
  let w :=
    {| new_client := Ok tt;
       begin_analyze_document :=
         fun _ _ => Ok {| documents := [];
                          pages := [[lit "a"; lit "b"]; [lit "c"]] |};
       chat_completion_create :=
         fun _ => Ok [Some (lit "Here you go:" ++ [nl] ++ lit "```json"
                            ++ [nl] ++ lit "{x}" ++ [nl] ++ lit "```")];
       json_loads := fun _ => Ok envelope |} in
  snd (process_handwritten_document w [])
  = Ok [(lit "extracted_text", PStr (lit "{x}"));
        (lit "summary", PStr (lit "s")); (lit "first_name", PStr (lit "A"));
        (lit "last_name", PStr (lit "B")); (lit "cnp", PStr (lit "1"))]
  /\ fst (process_handwritten_document w [])
     = [EvNewClient; EvAnalyze "prebuilt-read" [];
        EvChat (clean_prompt (lit "a" ++ [nl] ++ lit "b" ++ [nl] ++ lit "c"));
        EvChat (extract_prompt (lit "{x}")); EvJsonLoads (lit "{x}")].
Proof. split; reflexivity. Qed.

(** ** The pipeline boundary *)

(** C4. Neither pipeline lets an exception out: whatever the services
    answer, the result is a mapping, and when the body of the [try]
    raised, that mapping is the single entry ['error'] with the message
    of the exception. *)
Theorem pipelines_return_error_results
  (unicode_isdigit : char -> bool) (w : world)
  (document_bytes : list Byte.byte) :
  (exists d,
      snd (process_id_document unicode_isdigit w document_bytes) = Ok d
      /\ (snd (process_id_document_body unicode_isdigit w document_bytes)
          = Ok d
          \/ exists e,
               snd (process_id_document_body unicode_isdigit w document_bytes)
               = Raise e
               /\ d = [(lit "error", PStr (exn_msg e))]))
  /\ (exists d,
         snd (process_handwritten_document w document_bytes) = Ok d
         /\ (snd (process_handwritten_document_body w document_bytes) = Ok d
             \/ exists e,
                  snd (process_handwritten_document_body w document_bytes)
                  = Raise e
                  /\ d = [(lit "error", PStr (exn_msg e))])).
Proof.
  split.
  - unfold process_id_document, try_except, error_result, ret.
    destruct (process_id_document_body unicode_isdigit w document_bytes)
      as [tr [d|e]]; simpl; eexists; (split; [reflexivity|]); eauto.
  - unfold process_handwritten_document, try_except, error_result, ret.
    destruct (process_handwritten_document_body w document_bytes)
      as [tr [d|e]]; simpl; eexists; (split; [reflexivity|]); eauto.
Qed.

(** * Further properties of the code *)

(** ** [database.py] *)

(** X1. When the connection cannot be opened, neither save function
    reports it: the [finally] clause reads the unassigned [conn] and it
    is that [UnboundLocalError] that leaves the function.  Nothing else
    is called on the driver. *)
Theorem save_connection_failure_is_unbound_local
  (w : db_world) (e : exn) (a b c t s a' b' c' : str) :
  db_connect w (connection_string (env w)) = Raise e ->
  save_id_data w a b c
  = ([DbConnect (connection_string (env w))], Raise unbound_conn)
  /\ save_processed_text w t s a' b' c'
     = ([DbConnect (connection_string (env w))], Raise unbound_conn).
Proof.
  intros H.
  unfold save_id_data, save_processed_text, get_db_connection, act_finally,
    act_try, act_bind, act_call, act_raise.
  rewrite H. simpl. auto.
Qed.

Lemma save_connection_failure_is_unbound_local_witness :
  save_id_data unreachable_db (lit "Ion") (lit "Pop") (lit "1")
  = ([DbConnect (connection_string (env unreachable_db))],
     Raise unbound_conn)
  /\ save_processed_text unreachable_db (lit "t") (lit "s") (lit "Ion")
       (lit "Pop") (lit "1")
     = ([DbConnect (connection_string (env unreachable_db))],
        Raise unbound_conn).
Proof.
  apply (save_connection_failure_is_unbound_local unreachable_db
           (mk_exn OtherError (lit "timeout"))).
  reflexivity.
Defined.

(** Both save functions run the same steps. *)
Lemma save_id_data_run (w : db_world) (a b c : str) :
  save_id_data w a b c
  = save_run w id_data_query [a; b; c]
      (lit "Error saving ID data to the database: ").
Proof.
  unfold save_id_data, save_run, insert_steps, get_db_connection,
    act_finally, act_try, act_bind, act_call, act_raise.
  destruct (db_connect w (connection_string (env w))) as [[]|]; simpl;
    [|reflexivity].
  destruct (db_cursor w) as [[]|]; simpl;
    [|destruct (db_close w) as [[]|]; reflexivity].
  destruct (db_execute w id_data_query [a; b; c]) as [[]|]; simpl;
    [|destruct (db_close w) as [[]|]; reflexivity].
  destruct (db_commit w) as [[]|]; simpl;
    destruct (db_close w) as [[]|]; reflexivity.
Qed.

Lemma save_processed_text_run (w : db_world) (t s a b c : str) :
  save_processed_text w t s a b c
  = save_run w processed_text_query [t; s; a; b; c]
      (lit "Error saving processed text data to the database: ").
Proof.
  unfold save_processed_text, save_run, insert_steps, get_db_connection,
    act_finally, act_try, act_bind, act_call, act_raise.
  destruct (db_connect w (connection_string (env w))) as [[]|]; simpl;
    [|reflexivity].
  destruct (db_cursor w) as [[]|]; simpl;
    [|destruct (db_close w) as [[]|]; reflexivity].
  destruct (db_execute w processed_text_query [t; s; a; b; c]) as [[]|];
    simpl; [|destruct (db_close w) as [[]|]; reflexivity].
  destruct (db_commit w) as [[]|]; simpl;
    destruct (db_close w) as [[]|]; reflexivity.
Qed.

Lemma insert_steps_no_close w q ps :
  ~ In DbClose (fst (insert_steps w q ps)).
Proof.
  unfold insert_steps.
  destruct (db_cursor w); [destruct (db_execute w q ps)|]; simpl;
    intros H; repeat (destruct H as [H|H]; [discriminate|]); exact H.
Qed.

Lemma save_run_closes_once w q ps prefix :
  db_connect w (connection_string (env w)) = Ok tt ->
  exists tr,
    fst (save_run w q ps prefix) = tr ++ [DbClose] /\ ~ In DbClose tr.
Proof.
  intros H. unfold save_run. rewrite H.
  pose proof (insert_steps_no_close w q ps) as N.
  destruct (insert_steps w q ps) as [tr r]. simpl in *.
  exists (DbConnect (connection_string (env w)) :: tr). split; [reflexivity|].
  intros [D|D]; [discriminate | exact (N D)].
Qed.

(** X2. Once the connection is open it is closed on every path, once and
    as the last call, whatever fails in between. *)
Theorem save_closes_connection_once (w : db_world) (a b c t s a' b' c' : str) :
  db_connect w (connection_string (env w)) = Ok tt ->
  (exists tr,
      fst (save_id_data w a b c) = tr ++ [DbClose] /\ ~ In DbClose tr)
  /\ (exists tr,
         fst (save_processed_text w t s a' b' c') = tr ++ [DbClose]
         /\ ~ In DbClose tr).
Proof.
  intros H. rewrite save_id_data_run, save_processed_text_run.
  split; apply save_run_closes_once; exact H.
Qed.

Lemma save_closes_connection_once_witness :
  (exists tr,
      fst (save_id_data unclosable_db (lit "Ion") (lit "Pop") (lit "1"))
      = tr ++ [DbClose] /\ ~ In DbClose tr)
  /\ (exists tr,
         fst (save_processed_text unclosable_db (lit "t") (lit "s")
                (lit "Ion") (lit "Pop") (lit "1"))
         = tr ++ [DbClose] /\ ~ In DbClose tr).
Proof.
  apply (save_closes_connection_once unclosable_db). reflexivity.
Defined.

Lemma save_run_ok_iff w q ps prefix :
  snd (save_run w q ps prefix) = Ok tt <->
  db_connect w (connection_string (env w)) = Ok tt
  /\ db_cursor w = Ok tt /\ db_execute w q ps = Ok tt
  /\ db_commit w = Ok tt /\ db_close w = Ok tt.
Proof.
  unfold save_run, insert_steps.
  destruct (db_connect w (connection_string (env w))) as [[]|]; simpl.
  2: { split; [discriminate | intros (H & _); discriminate]. }
  destruct (db_cursor w) as [[]|]; simpl.
  2: { destruct (db_close w) as [[]|]; simpl;
         (split; [discriminate | intros (_ & H & _); discriminate]). }
  destruct (db_execute w q ps) as [[]|]; simpl.
  2: { destruct (db_close w) as [[]|]; simpl;
         (split; [discriminate | intros (_ & _ & H & _); discriminate]). }
  destruct (db_commit w) as [[]|]; destruct (db_close w) as [[]|]; simpl;
    split; try discriminate; auto;
    intros (_ & _ & _ & H1 & H2); discriminate.
Qed.

(** X3. A save function returns normally exactly when every call on the
    driver succeeded: connecting, the cursor, the insert, the commit and
    the close. *)
Theorem save_returns_iff_all_steps_succeed
  (w : db_world) (a b c t s a' b' c' : str) :
  (snd (save_id_data w a b c) = Ok tt <->
   db_connect w (connection_string (env w)) = Ok tt
   /\ db_cursor w = Ok tt
   /\ db_execute w id_data_query [a; b; c] = Ok tt
   /\ db_commit w = Ok tt /\ db_close w = Ok tt)
  /\ (snd (save_processed_text w t s a' b' c') = Ok tt <->
      db_connect w (connection_string (env w)) = Ok tt
      /\ db_cursor w = Ok tt
      /\ db_execute w processed_text_query [t; s; a'; b'; c'] = Ok tt
      /\ db_commit w = Ok tt /\ db_close w = Ok tt).
Proof.
  rewrite save_id_data_run, save_processed_text_run.
  split; apply save_run_ok_iff.
Qed.

Lemma save_run_close_failure w q ps prefix e :
  db_connect w (connection_string (env w)) = Ok tt ->
  db_close w = Raise e ->
  snd (save_run w q ps prefix) = Raise e
  /\ (db_cursor w = Ok tt -> db_execute w q ps = Ok tt ->
      In DbCommit (fst (save_run w q ps prefix))).
Proof.
  intros H C. unfold save_run, insert_steps. rewrite H, C.
  destruct (db_cursor w) as [[]|]; [|split; [reflexivity | discriminate]].
  destruct (db_execute w q ps) as [[]|];
    [|split; [reflexivity | discriminate]].
  split; [reflexivity|]. intros _ _. simpl. auto.
Qed.

(** X4. When closing the connection fails, that exception is what leaves
    the save function, unwrapped, whatever happened before; in
    particular it is raised although the row was inserted and the commit
    was issued. *)
Theorem save_close_failure_replaces_outcome
  (w : db_world) (e : exn) (a b c t s a' b' c' : str) :
  db_connect w (connection_string (env w)) = Ok tt ->
  db_close w = Raise e ->
  (snd (save_id_data w a b c) = Raise e
   /\ (db_cursor w = Ok tt ->
       db_execute w id_data_query [a; b; c] = Ok tt ->
       In DbCommit (fst (save_id_data w a b c))))
  /\ (snd (save_processed_text w t s a' b' c') = Raise e
      /\ (db_cursor w = Ok tt ->
          db_execute w processed_text_query [t; s; a'; b'; c'] = Ok tt ->
          In DbCommit (fst (save_processed_text w t s a' b' c')))).
Proof.
  intros H C. rewrite save_id_data_run, save_processed_text_run.
  split; apply save_run_close_failure; assumption.
Qed.

Lemma save_close_failure_replaces_outcome_witness :
  (snd (save_id_data unclosable_db (lit "Ion") (lit "Pop") (lit "1"))
   = Raise (mk_exn OtherError (lit "link lost"))
   /\ (db_cursor unclosable_db = Ok tt ->
       db_execute unclosable_db id_data_query
         [lit "Ion"; lit "Pop"; lit "1"] = Ok tt ->
       In DbCommit
         (fst (save_id_data unclosable_db (lit "Ion") (lit "Pop") (lit "1")))))
  /\ (snd (save_processed_text unclosable_db (lit "t") (lit "s") (lit "Ion")
             (lit "Pop") (lit "1"))
      = Raise (mk_exn OtherError (lit "link lost"))
      /\ (db_cursor unclosable_db = Ok tt ->
          db_execute unclosable_db processed_text_query
            [lit "t"; lit "s"; lit "Ion"; lit "Pop"; lit "1"] = Ok tt ->
          In DbCommit
            (fst (save_processed_text unclosable_db (lit "t") (lit "s")
                    (lit "Ion") (lit "Pop") (lit "1"))))).
Proof.
  apply (save_close_failure_replaces_outcome unclosable_db
           (mk_exn OtherError (lit "link lost"))); reflexivity.
Defined.

Lemma save_run_failure_wrapped w q ps prefix e :
  db_connect w (connection_string (env w)) = Ok tt ->
  db_close w = Ok tt ->
  snd (save_run w q ps prefix) = Raise e ->
  exists cause,
    e = runtime_error (prefix ++ exn_msg cause)
    /\ (db_cursor w = Raise cause
        \/ (db_cursor w = Ok tt /\ db_execute w q ps = Raise cause)
        \/ (db_cursor w = Ok tt /\ db_execute w q ps = Ok tt
            /\ db_commit w = Raise cause)).
Proof.
  intros H C. unfold save_run, insert_steps. rewrite H, C.
  destruct (db_cursor w) as [[]|e1]; simpl.
  2: { intros X. injection X as <-. eauto. }
  destruct (db_execute w q ps) as [[]|e2]; simpl.
  2: { intros X. injection X as <-. exists e2. auto. }
  destruct (db_commit w) as [[]|e3]; simpl; [discriminate|].
  intros X. injection X as <-. exists e3. auto 6.
Qed.

(** X5. With the connection opened and closed without error, an
    exception of a save function is a [RuntimeError] whose message is
    the prefix of that function followed by the message of the first
    call that failed: the cursor, the insert or the commit. *)
Theorem save_failure_is_wrapped
  (w : db_world) (a b c t s a' b' c' : str) :
  db_connect w (connection_string (env w)) = Ok tt ->
  db_close w = Ok tt ->
  (forall e,
      snd (save_id_data w a b c) = Raise e ->
      exists cause,
        e = runtime_error
              (lit "Error saving ID data to the database: " ++ exn_msg cause)
        /\ (db_cursor w = Raise cause
            \/ (db_cursor w = Ok tt
                /\ db_execute w id_data_query [a; b; c] = Raise cause)
            \/ (db_cursor w = Ok tt
                /\ db_execute w id_data_query [a; b; c] = Ok tt
                /\ db_commit w = Raise cause)))
  /\ (forall e,
         snd (save_processed_text w t s a' b' c') = Raise e ->
         exists cause,
           e = runtime_error
                 (lit "Error saving processed text data to the database: "
                  ++ exn_msg cause)
           /\ (db_cursor w = Raise cause
               \/ (db_cursor w = Ok tt
                   /\ db_execute w processed_text_query [t; s; a'; b'; c']
                      = Raise cause)
               \/ (db_cursor w = Ok tt
                   /\ db_execute w processed_text_query [t; s; a'; b'; c']
                      = Ok tt
                   /\ db_commit w = Raise cause))).
Proof.
  intros H C. rewrite save_id_data_run, save_processed_text_run.
  split; intros e; now apply save_run_failure_wrapped.
Qed.

Lemma save_failure_is_wrapped_witness :
  snd (save_id_data rejecting_db (lit "Ion") (lit "Pop") (lit "1"))
  = Raise (runtime_error
             (lit "Error saving ID data to the database: duplicate key")).
Proof.
  destruct (save_failure_is_wrapped rejecting_db (lit "Ion") (lit "Pop")
              (lit "1") (lit "t") (lit "s") (lit "Ion") (lit "Pop") (lit "1")
              eq_refl eq_refl) as [H _].
  destruct (snd (save_id_data rejecting_db (lit "Ion") (lit "Pop") (lit "1")))
    as [[]|e] eqn:E.
  - vm_compute in E. discriminate.
  - destruct (H e eq_refl) as (cause & -> & [C|[[_ C]|[_ [C _]]]]);
      try discriminate.
    vm_compute in C. injection C as <-. reflexivity.
Defined.

Lemma save_run_statement w q ps prefix ev :
  In ev (fst (save_run w q ps prefix)) ->
  match ev with
  | DbExecute q' ps' =>
      q' = q /\ ps' = ps /\ db_cursor w = Ok tt
  | DbCommit => db_execute w q ps = Ok tt
  | _ => True
  end.
Proof.
  unfold save_run, insert_steps.
  destruct (db_connect w (connection_string (env w))) as [[]|]; simpl.
  2: { intros [<-|[]]. exact I. }
  destruct (db_cursor w) as [[]|]; simpl.
  2: { intros [<-|[<-|[<-|[]]]]; exact I. }
  destruct (db_execute w q ps) as [[]|]; simpl.
  - intros [<-|[<-|[<-|[<-|[<-|[]]]]]]; auto.
  - intros [<-|[<-|[<-|[<-|[]]]]]; auto.
Qed.

(** X6. The only statement a save function ever executes is its own
    constant [INSERT], with the arguments of the call as its parameters,
    in order; and a commit is issued only after that insert succeeded. *)
Theorem save_executes_only_its_insert
  (w : db_world) (a b c t s a' b' c' : str) :
  (forall q ps,
      In (DbExecute q ps) (fst (save_id_data w a b c)) ->
      q = id_data_query /\ ps = [a; b; c])
  /\ (In DbCommit (fst (save_id_data w a b c)) ->
      db_execute w id_data_query [a; b; c] = Ok tt)
  /\ (forall q ps,
         In (DbExecute q ps) (fst (save_processed_text w t s a' b' c')) ->
         q = processed_text_query /\ ps = [t; s; a'; b'; c'])
  /\ (In DbCommit (fst (save_processed_text w t s a' b' c')) ->
      db_execute w processed_text_query [t; s; a'; b'; c'] = Ok tt).
Proof.
  rewrite save_id_data_run, save_processed_text_run.
  repeat split; intros;
    match goal with
    | H : In _ _ |- _ => apply save_run_statement in H
    end; tauto.
Qed.

(** ** [utils.validate_and_prepare_file] *)

Lemma str_eqb_eq (a b : str) : str_eqb a b = true <-> a = b.
Proof.
  revert b. induction a as [|x a IH]; intros [|y b]; simpl;
    try (split; [discriminate | discriminate]); [tauto|].
  rewrite andb_true_iff, N.eqb_eq, IH. split.
  - intros [-> ->]. reflexivity.
  - intros H. injection H as -> ->. auto.
Qed.

Lemma startswith_app (p y : str) : startswith (p ++ y) p = true.
Proof.
  induction p as [|c p IH]; simpl; [now destruct y|].
  now rewrite N.eqb_refl, IH.
Qed.

Lemma endswith_app (x p : str) : endswith (x ++ p) p = true.
Proof. unfold endswith. rewrite rev_app_distr. apply startswith_app. Qed.

Lemma ascii_lower_is_ascii (c : char) :
  (ascii_lower c <? 0x80) = true -> (c <? 0x80) = true.
Proof.
  unfold ascii_lower.
  destruct ((0x41 <=? c) && (c <=? 0x5A)) eqn:U; [|auto].
  intros _. apply andb_prop in U as [_ U]. apply N.leb_le in U.
  apply N.ltb_lt. lia.
Qed.

Lemma lower_from_ascii_suffix ul whole (stem ext : str) : forall i,
  forallb (fun c => c <? 0x80) ext = true ->
  lower_from ul whole i (stem ++ ext)
  = lower_from ul whole i stem ++ map ascii_lower ext.
Proof.
  induction stem as [|c stem IH]; intros i A; simpl.
  - revert i. induction ext as [|c ext IHe]; intros i; simpl; [reflexivity|].
    simpl in A. apply andb_prop in A as [C A]. now rewrite C, IHe.
  - now rewrite IH, app_assoc.
Qed.

(** X7. A file whose name ends in [.pdf], in any mix of upper and lower
    case, is returned as uploaded: the bytes are those [file.read()]
    gives, and the imaging library is not called. *)
Theorem pdf_upload_passes_through
  (unicode_lower : str -> nat -> str) (lib : imaging) (file : upload)
  (stem ext : str) :
  name file = stem ++ ext ->
  map ascii_lower ext = lit ".pdf" ->
  validate_and_prepare_file unicode_lower lib file
  = ([FileRead], Ok (data file)).
Proof.
  intros N E.
  assert (A : forallb (fun c => c <? 0x80) ext = true).
  { apply forallb_forall. intros c I. apply ascii_lower_is_ascii.
    apply (in_map ascii_lower) in I. rewrite E in I.
    simpl in I. repeat (destruct I as [<-|I]; [reflexivity|]). destruct I. }
  unfold validate_and_prepare_file, lower. rewrite N.
  rewrite (lower_from_ascii_suffix _ _ _ _ _ A), E, endswith_app.
  reflexivity.
Qed.

Lemma pdf_upload_passes_through_witness :
  validate_and_prepare_file identity_lower gif_imaging
    {| name := lit "Scan.PdF"; data := [Byte.x25; Byte.x50] |}
  = ([FileRead], Ok [Byte.x25; Byte.x50]).
Proof.
  apply (pdf_upload_passes_through identity_lower gif_imaging
           {| name := lit "Scan.PdF"; data := [Byte.x25; Byte.x50] |}
           (lit "Scan") (lit ".PdF")); reflexivity.
Defined.

(** X8. What [validate_and_prepare_file] returns is either the untouched
    upload of a file named as a PDF, or the re-encoding, in its own
    format, of an image decoded as JPEG or PNG and passed through
    [thumbnail] with the bound 2000 x 2000; and every exception that
    leaves it is a [RuntimeError] whose message starts with ["Error
    validating or preparing file: "]. *)
Theorem validate_and_prepare_file_outcomes
  (unicode_lower : str -> nat -> str) (lib : imaging) (file : upload) :
  (forall b,
      snd (validate_and_prepare_file unicode_lower lib file) = Ok b ->
      (endswith (lower unicode_lower (name file)) (lit ".pdf") = true
       /\ b = data file)
      \/ (endswith (lower unicode_lower (name file)) (lit ".pdf") = false
          /\ exists img pixels,
               image_open lib file = Ok img
               /\ (format img = Some (lit "JPEG")
                   \/ format img = Some (lit "PNG"))
               /\ image_thumbnail lib img (2000, 2000)%nat = Ok pixels
               /\ image_save lib {| format := format img; raster := pixels |}
                    (format img) = Ok b))
  /\ (forall e,
         snd (validate_and_prepare_file unicode_lower lib file) = Raise e ->
         exists cause,
           e = runtime_error
                 (lit "Error validating or preparing file: "
                  ++ exn_msg cause)).
Proof.
  unfold validate_and_prepare_file, act_try, act_bind, act_call, act_raise.
  destruct (endswith (lower unicode_lower (name file)) (lit ".pdf")) eqn:P.
  { simpl. split; [|discriminate]. intros b H. injection H as <-. auto. }
  destruct (image_open lib file) as [img|e0] eqn:O; simpl.
  2: { split; [discriminate|]. intros e H. injection H as <-. eauto. }
  destruct (format_in (format img) [lit "JPEG"; lit "PNG"]) eqn:F; simpl.
  2: { split; [discriminate|]. intros e H. injection H as <-.
       exists (mk_exn ValueError
                 (lit "Unsupported image format. Please upload a JPEG, PNG, or PDF file.")).
       reflexivity. }
  assert (Fm : format img = Some (lit "JPEG") \/ format img = Some (lit "PNG")).
  { unfold format_in in F. destruct (format img) as [s|]; [|discriminate].
    simpl in F. rewrite orb_false_r in F.
    apply orb_prop in F as [F|F]; apply str_eqb_eq in F; subst; auto. }
  destruct (image_thumbnail lib img (2000, 2000)%nat) as [px|e1] eqn:T; simpl.
  2: { split; [discriminate|]. intros e H. injection H as <-. eauto. }
  destruct (image_save lib {| format := format img; raster := px |}
              (format img)) as [out|e2] eqn:S; simpl.
  - split; [|discriminate]. intros b H. injection H as <-. right.
    split; [reflexivity|]. exists img, px. auto.
  - split; [discriminate|]. intros e H. injection H as <-. eauto.
Qed.

(** X9. An upload that is not named as a PDF and whose decoded format is
    neither JPEG nor PNG (or is missing) is refused with the message
    about unsupported formats, before any resizing or encoding. *)
Theorem unsupported_image_is_refused
  (unicode_lower : str -> nat -> str) (lib : imaging) (file : upload)
  (img : image) :
  endswith (lower unicode_lower (name file)) (lit ".pdf") = false ->
  image_open lib file = Ok img ->
  format img <> Some (lit "JPEG") ->
  format img <> Some (lit "PNG") ->
  validate_and_prepare_file unicode_lower lib file
  = ([ImageOpen],
     Raise (runtime_error
              (lit "Error validating or preparing file: Unsupported image format. Please upload a JPEG, PNG, or PDF file."))).
Proof.
  intros P O J G.
  unfold validate_and_prepare_file, act_try, act_bind, act_call, act_raise.
  rewrite P, O. simpl.
  assert (F : format_in (format img) [lit "JPEG"; lit "PNG"] = false).
  { unfold format_in. destruct (format img) as [s|]; [|reflexivity].
    simpl. rewrite orb_false_r. apply orb_false_intro.
    - destruct (str_eqb s (lit "JPEG")) eqn:E; [|reflexivity].
      apply str_eqb_eq in E. subst. now destruct J.
    - destruct (str_eqb s (lit "PNG")) eqn:E; [|reflexivity].
      apply str_eqb_eq in E. subst. now destruct G. }
  rewrite F. reflexivity.
Qed.

Lemma unsupported_image_is_refused_witness :
  validate_and_prepare_file identity_lower gif_imaging
    {| name := lit "card.gif"; data := [Byte.x47] |}
  = ([ImageOpen],
     Raise (runtime_error
              (lit "Error validating or preparing file: Unsupported image format. Please upload a JPEG, PNG, or PDF file."))).
Proof.
  apply (unsupported_image_is_refused identity_lower gif_imaging
           {| name := lit "card.gif"; data := [Byte.x47] |}
           {| format := Some (lit "GIF"); raster := [Byte.x47] |});
    [reflexivity | reflexivity | discriminate | discriminate].
Defined.

(** ** [utils.validate_cnp] on every string *)

Section ValidCodes.

Variable unicode_decimal : char -> option Z.

Lemma mapM_digit_values (l : str) :
  forallb (isdecimal unicode_decimal) l = true ->
  mapM (int_of_char unicode_decimal) l = Ok (digit_values unicode_decimal l).
Proof.
  induction l as [|c l IH]; simpl; intros F; [reflexivity|].
  apply andb_prop in F as [C F]. rewrite (IH F).
  unfold isdecimal in C. unfold int_of_char.
  now destruct (to_decimal unicode_decimal c).
Qed.

Lemma cnp_shape_parts (cnp : str) :
  cnp_shape unicode_decimal cnp = true <->
  exists c0 rest,
    cnp = c0 :: rest /\ one_to_eight c0 = true /\ length rest = 12%nat
    /\ forallb (isdecimal unicode_decimal) rest = true.
Proof.
  unfold cnp_shape. split.
  - destruct cnp as [|c0 rest]; [discriminate|]. intros H.
    apply andb_prop in H as [H F]. apply andb_prop in H as [C L].
    apply Nat.eqb_eq in L. exists c0, rest. auto.
  - intros (c0 & rest & -> & C & L & F). now rewrite C, L, F.
Qed.

(** On a string of the required format the answer is the comparison of
    the last digit with the checksum. *)
Lemma validate_cnp_on_shape (cnp : str) :
  cnp_shape unicode_decimal cnp = true ->
  validate_cnp unicode_decimal cnp
  = Ok (nth 12 (digit_values unicode_decimal cnp) 0
        =? checksum_spec (digit_values unicode_decimal cnp))%Z.
Proof.
  intros S. apply cnp_shape_parts in S as (c0 & rest & -> & C0 & L & F).
  assert (M : re_match (cnp_pattern unicode_decimal) (c0 :: rest) <> None).
  { apply cnp_pattern_match. exists c0, rest, []. now rewrite app_nil_r. }
  unfold validate_cnp. rewrite mapM_digit_values.
  2: { simpl. now rewrite (one_to_eight_isdecimal _ _ C0), F. }
  destruct (re_match (cnp_pattern unicode_decimal) (c0 :: rest));
    [|congruence].
  assert (Ld : length (digit_values unicode_decimal (c0 :: rest)) = 13%nat).
  { unfold digit_values. rewrite length_map. simpl. now rewrite L. }
  destruct (digit_values unicode_decimal (c0 :: rest)) as [|? d];
    [discriminate|].
  do 12 (destruct d as [|? d]; [discriminate|]).
  destruct d; [|discriminate].
  cbn -[Z.add Z.mul Z.modulo Z.eqb].
  unfold checksum_spec, weighted_sum.
  cbn -[Z.add Z.mul Z.modulo Z.eqb].
  now rewrite !Z.add_0_r, !Z.add_assoc.
Qed.

(** Off the required format the answer is false. *)
Lemma validate_cnp_off_shape (cnp : str) :
  cnp_shape unicode_decimal cnp = false ->
  validate_cnp unicode_decimal cnp = Ok false.
Proof.
  intros H. unfold validate_cnp.
  destruct (re_match (cnp_pattern unicode_decimal) cnp) as [ts|] eqn:M.
  2: { now rewrite orb_true_r. }
  assert (M' : re_match (cnp_pattern unicode_decimal) cnp <> None)
    by congruence.
  apply cnp_pattern_match in M' as (c0 & rest & tl & -> & C0 & L & F & E).
  destruct tl as [|c [|? ?]]; try discriminate.
  - rewrite app_nil_r in H. simpl in H. rewrite C0, L, F in H. discriminate.
  - simpl in E. apply N.eqb_eq in E. subst c.
    assert (Md : mapM (int_of_char unicode_decimal) (c0 :: rest)
                 = Ok (digit_values unicode_decimal (c0 :: rest))).
    { apply mapM_digit_values. simpl.
      now rewrite (one_to_eight_isdecimal _ _ C0), F. }
    change (c0 :: rest ++ [nl]) with ((c0 :: rest) ++ [nl]).
    erewrite (mapM_raise_after _ _ _ nl _ [] Md).
    2: { unfold int_of_char. rewrite to_decimal_nl. reflexivity. }
    destruct rest; reflexivity.
Qed.

(** X10. [validate_cnp] decides validity on every string and never
    raises: it returns true exactly on the strings of 13 characters, the
    first of 1-8 and the others decimal digits, whose last digit is the
    checksum of the first twelve. *)
Theorem validate_cnp_decides_validity (cnp : str) :
  validate_cnp unicode_decimal cnp = Ok (valid_cnp unicode_decimal cnp).
Proof.
  unfold valid_cnp. destruct (cnp_shape unicode_decimal cnp) eqn:S.
  - now rewrite validate_cnp_on_shape.
  - now rewrite validate_cnp_off_shape.
Qed.

Lemma ascii_digit_value (c : char) :
  ascii_digit c = true ->
  to_decimal unicode_decimal c = Some (Z.of_N (c - 0x30))
  /\ (0 <= Z.of_N (c - 0x30) <= 9)%Z.
Proof.
  unfold ascii_digit, to_decimal. intros H. rewrite H.
  apply andb_prop in H as [H1 H2]. apply N.leb_le in H1, H2.
  replace (c <? 0x80) with true by (symmetry; apply N.ltb_lt; lia).
  split; [reflexivity | lia].
Qed.

Lemma checksum_spec_range (d : list Z) : (0 <= checksum_spec d <= 9)%Z.
Proof.
  unfold checksum_spec.
  pose proof (Z.mod_pos_bound (weighted_sum d) 11 ltac:(lia)).
  destruct (weighted_sum d mod 11 =? 10)%Z eqn:E; [lia|].
  apply Z.eqb_neq in E. lia.
Qed.

Lemma weighted_sum_first_twelve (d : list Z) (x : Z) :
  length d = 12%nat -> weighted_sum (d ++ [x]) = weighted_sum d.
Proof.
  intros L. unfold weighted_sum.
  rewrite firstn_app, L, Nat.sub_diag. simpl firstn at 2.
  now rewrite app_nil_r, <- L, !firstn_all.
Qed.

Lemma digit_values_app (a b : str) :
  digit_values unicode_decimal (a ++ b)
  = digit_values unicode_decimal a ++ digit_values unicode_decimal b.
Proof. unfold digit_values. apply map_app. Qed.

Lemma prefix_shape_extend (prefix : str) (c : char) :
  prefix_shape unicode_decimal prefix = true ->
  isdecimal unicode_decimal c = true ->
  cnp_shape unicode_decimal (prefix ++ [c]) = true
  /\ length prefix = 12%nat.
Proof.
  unfold prefix_shape. destruct prefix as [|c0 rest]; [discriminate|].
  intros H D. apply andb_prop in H as [H F]. apply andb_prop in H as [C L].
  apply Nat.eqb_eq in L. simpl.
  rewrite C, length_app, L, forallb_app, F. simpl. now rewrite D.
Qed.

(** The answer on twelve characters of the required format followed by
    one ASCII digit. *)
Lemma validate_cnp_control_digit (prefix : str) (c : char) :
  prefix_shape unicode_decimal prefix = true ->
  ascii_digit c = true ->
  validate_cnp unicode_decimal (prefix ++ [c])
  = Ok (Z.of_N (c - 0x30)
        =? checksum_spec (digit_values unicode_decimal prefix))%Z.
Proof.
  intros S A.
  destruct (ascii_digit_value c A) as [Dc _].
  destruct (prefix_shape_extend prefix c S) as [Sc L].
  { unfold isdecimal. now rewrite Dc. }
  rewrite (validate_cnp_on_shape _ Sc).
  assert (Lp : length (digit_values unicode_decimal prefix) = 12%nat).
  { unfold digit_values. now rewrite length_map. }
  rewrite digit_values_app. unfold checksum_spec.
  simpl (digit_values unicode_decimal [c]). rewrite Dc.
  rewrite (weighted_sum_first_twelve _ _ Lp).
  rewrite app_nth2, Lp by lia. reflexivity.
Qed.

(** X11. Twelve characters of the required format can be completed to a
    valid code by exactly one ASCII digit. *)
Theorem control_digit_exists_and_is_unique (prefix : str) :
  prefix_shape unicode_decimal prefix = true ->
  exists c,
    ascii_digit c = true
    /\ validate_cnp unicode_decimal (prefix ++ [c]) = Ok true
    /\ forall c',
         ascii_digit c' = true ->
         validate_cnp unicode_decimal (prefix ++ [c']) = Ok true ->
         c' = c.
Proof.
  intros S.
  pose proof (checksum_spec_range (digit_values unicode_decimal prefix)) as R.
  set (k := checksum_spec (digit_values unicode_decimal prefix)) in *.
  exists (0x30 + Z.to_N k).
  assert (A : ascii_digit (0x30 + Z.to_N k) = true).
  { unfold ascii_digit. apply andb_true_intro.
    split; apply N.leb_le; lia. }
  split; [exact A|]. split.
  - rewrite (validate_cnp_control_digit _ _ S A). fold k. f_equal.
    apply Z.eqb_eq. lia.
  - intros c' A' V. rewrite (validate_cnp_control_digit _ _ S A') in V.
    fold k in V. injection V as V. apply Z.eqb_eq in V.
    destruct (ascii_digit_value c' A') as [_ B].
    unfold ascii_digit in A'. apply andb_prop in A' as [A1 A2].
    apply N.leb_le in A1, A2. lia.
Qed.







End ValidCodes.

Lemma control_digit_exists_and_is_unique_witness :
  exists c,
    ascii_digit c = true
    /\ validate_cnp ascii_decimal (lit "100800000000" ++ [c]) = Ok true
    /\ forall c',
         ascii_digit c' = true ->
         validate_cnp ascii_decimal (lit "100800000000" ++ [c']) = Ok true ->
         c' = c.
Proof.
  apply (control_digit_exists_and_is_unique ascii_decimal
           (lit "100800000000")).
  reflexivity.
Defined.


(** ** [azure_services.remove_code_blocks], further *)

Lemma infix_trans (t u v a b c d : str) :
  t = a ++ u ++ b -> u = c ++ v ++ d -> t = (a ++ c) ++ v ++ (d ++ b).
Proof. intros -> ->. now rewrite <- !app_assoc. Qed.

Lemma fenced_inner_infix opening t pre ws inner post :
  fenced opening t pre ws inner post -> exists a b, t = a ++ inner ++ b.
Proof.
  intros [-> _]. exists (pre ++ opening ++ ws ++ [nl]), (nl :: lit "```" ++ post).
  now app_norm.
Qed.

(** X13. The normaliser only cuts: its result is a piece of the text it
    was given, and carries no white space at either end. *)
Theorem remove_code_blocks_cuts_and_trims (t : str) :
  (exists a b, t = a ++ remove_code_blocks t ++ b)
  /\ strip (remove_code_blocks t) = remove_code_blocks t.
Proof.
  assert (Inner : forall opening m,
             re_search (fence_pattern opening) t = Some m ->
             exists a b,
               t = a ++ strip (group1 (fence_pattern opening) m) ++ b).
  { intros opening m H.
    apply fence_search_some in H as (pre & ws & inner & post & [F _] & ->).
    destruct (fenced_inner_infix _ _ _ _ _ _ F) as (a & b & E).
    destruct (strip_infix inner) as (c & d & E').
    eexists _, _. exact (infix_trans _ _ _ _ _ _ _ E E'). }
  unfold remove_code_blocks.
  rewrite json_block_pattern_eq, code_block_pattern_eq.
  destruct (re_search (fence_pattern (lit "```json")) t) as [m|] eqn:J.
  { split; [exact (Inner _ _ J) | apply strip_idem]. }
  destruct (re_search (fence_pattern (lit "```")) t) as [m|] eqn:C.
  { split; [exact (Inner _ _ C) | apply strip_idem]. }
  split; [apply strip_infix | apply strip_idem].
Qed.

Lemma has_closing_newline (t : str) : has_closing t -> In nl t.
Proof.
  intros (a & b & ->). apply in_or_app. right. now left.
Qed.

(** X14. A fence is recognised only across lines: a text in which no
    newline is followed by three backquotes, and so any text of a single
    line, is returned trimmed and otherwise as it is, fences included. *)
Theorem remove_code_blocks_needs_newline (t : str) :
  (~ has_closing t -> remove_code_blocks t = strip t)
  /\ (~ In nl t -> remove_code_blocks t = strip t).
Proof.
  split.
  - apply remove_code_blocks_no_closing.
  - intros N. apply remove_code_blocks_no_closing.
    intros H. exact (N (has_closing_newline _ H)).
Qed.

(** ** [azure_services.process_id_document], further *)

Lemma get_field_value_trimmed (field : pyval) (r : str) :
  get_field_value field = Ok r -> strip r = r.
Proof.
  unfold get_field_value.
  destruct (truthy field); [|intros H; now injection H as <-].
  assert (S : forall v, call_strip v = Ok r -> strip r = r).
  { intros [| | |s| | |]; try discriminate. simpl. intros H.
    injection H as <-. apply strip_idem. }
  destruct field;
    repeat match goal with
           | |- (if ?c then _ else _) = _ -> _ => destruct c
           end;
    try (intros H; now injection H as <-); apply S.
Qed.

Lemma forallb_filter {A} (p : A -> bool) (l : list A) :
  forallb p (filter p l) = true.
Proof.
  induction l as [|x l IH]; simpl; [reflexivity|].
  destruct (p x) eqn:P; simpl; [now rewrite P|exact IH].
Qed.

(** X15. Whatever the analysis answers, [process_id_document] returns
    one of three mappings: the empty one, a single ['error'] entry, or
    exactly the entries ['first_name'], ['last_name'] and ['cnp'], in
    this order, the names without white space at either end and the
    number made of digit characters only. *)
Theorem process_id_document_result_shape
  (unicode_isdigit : char -> bool) (w : world)
  (document_bytes : list Byte.byte) :
  exists d,
    snd (process_id_document unicode_isdigit w document_bytes) = Ok d
    /\ (d = []
        \/ (exists m, d = [(lit "error", PStr m)])
        \/ (exists first_name last_name cnp,
              d = [(lit "first_name", PStr first_name);
                   (lit "last_name", PStr last_name); (lit "cnp", PStr cnp)]
              /\ strip first_name = first_name
              /\ strip last_name = last_name
              /\ forallb (isdigit unicode_isdigit) cnp = true)).
Proof.
  destruct (process_id_document_cases unicode_isdigit w document_bytes)
    as (d & H & C).
  exists d. split; [exact H|].
  destruct C as [(e & _ & ->) | (res & _ & _ & L)].
  - right. left. eauto.
  - destruct (documents res) as [|x rest] eqn:D.
    { simpl in L. injection L as <-. now left. }
    destruct (exists_last (l := x :: rest)) as (front & doc & E);
      [discriminate|].
    rewrite E in L.
    apply id_document_loop_last in L as (f & l & raw & F & La & _ & ->);
      [|now left].
    right. right. exists f, l, (filter (isdigit unicode_isdigit) raw).
    repeat split.
    + exact (get_field_value_trimmed _ _ F).
    + exact (get_field_value_trimmed _ _ La).
    + apply forallb_filter.
Qed.

(** ** [azure_services.extract_fields_with_openai], further *)

(** [metadata.get(k, "").strip()] on a decoded mapping. *)
Lemma read_envelope_key (d : dict) (k : str) :
  (v <- call_get (PDict d) k (PStr []) ;; call_strip v)
  = match lookup d k with
    | None => Ok []
    | Some (PStr s) => Ok (strip s)
    | Some v => Raise (no_method v (lit "strip"))
    end.
Proof.
  unfold call_get, dict_get_default. simpl.
  destruct (lookup d k) as [[| | |s| | |]|]; reflexivity.
Qed.

Lemma read_envelope_key_string (d : dict) (k : str) :
  (forall v, lookup d k = Some v -> is_str v = true) ->
  (v <- call_get (PDict d) k (PStr []) ;; call_strip v)
  = Ok (envelope_field d k).
Proof.
  intros S. rewrite read_envelope_key. unfold envelope_field.
  destruct (lookup d k) as [v|]; [|reflexivity].
  specialize (S v eq_refl). destruct v; try discriminate. reflexivity.
Qed.

Lemma read_envelope_key_other (d : dict) (k : str) (v : pyval) :
  lookup d k = Some v -> is_str v = false ->
  (v <- call_get (PDict d) k (PStr []) ;; call_strip v)
  = Raise (no_method v (lit "strip")).
Proof.
  intros L S. rewrite read_envelope_key, L. now destruct v.
Qed.

(** The stage up to the decoded envelope. *)
Lemma extract_fields_decoded w cleaned_text response raw (d : dict) :
  chat_completion_create w (extract_prompt cleaned_text) = Ok response ->
  first_content response = Ok raw ->
  shape_ok (remove_code_blocks raw) = true ->
  json_loads w (remove_code_blocks raw) = Ok (PDict d) ->
  extract_fields_with_openai w cleaned_text
  = try_except
      (bind ([EvChat (extract_prompt cleaned_text);
              EvJsonLoads (remove_code_blocks raw)], Ok tt)
         (fun _ =>
            summary <~ lift (v <- call_get (PDict d) (lit "summary") (PStr []) ;;
                             call_strip v) ;;
            first_name <~ lift (v <- call_get (PDict d) (lit "first_name")
                                       (PStr []) ;;
                                call_strip v) ;;
            last_name <~ lift (v <- call_get (PDict d) (lit "last_name")
                                      (PStr []) ;;
                               call_strip v) ;;
            cnp <~ lift (v <- call_get (PDict d) (lit "cnp") (PStr []) ;;
                         call_strip v) ;;
            ret (summary, first_name, last_name, cnp)))
      (extract_handler (Some (remove_code_blocks raw))).
Proof.
  intros C F S J.
  unfold extract_fields_with_openai, extract_content, bind, call, lift, ret.
  rewrite C, F. simpl. unfold extract_parse.
  unfold shape_ok in S. rewrite S. simpl. unfold bind, call. rewrite J.
  unfold lift, ret, call_get, rbind. simpl.
  destruct (call_strip (dict_get_default d (lit "summary") (PStr [])));
    [|reflexivity].
  destruct (call_strip (dict_get_default d (lit "first_name") (PStr [])));
    [|reflexivity].
  destruct (call_strip (dict_get_default d (lit "last_name") (PStr [])));
    [|reflexivity].
  destruct (call_strip (dict_get_default d (lit "cnp") (PStr [])));
    reflexivity.
Qed.

(** X16. From a decoded envelope the stage returns, for each of
    ['summary'], ['first_name'], ['last_name'] and ['cnp'], the value
    trimmed, and the empty string for a key that is missing; other keys
    are ignored. *)
Theorem extract_fields_defaults_and_trims
  w cleaned_text response raw (d : dict) :
  chat_completion_create w (extract_prompt cleaned_text) = Ok response ->
  first_content response = Ok raw ->
  shape_ok (remove_code_blocks raw) = true ->
  json_loads w (remove_code_blocks raw) = Ok (PDict d) ->
  (forall k v, In k envelope_keys -> lookup d k = Some v -> is_str v = true) ->
  extract_fields_with_openai w cleaned_text
  = ([EvChat (extract_prompt cleaned_text);
      EvJsonLoads (remove_code_blocks raw)],
     Ok (envelope_field d (lit "summary"),
         envelope_field d (lit "first_name"),
         envelope_field d (lit "last_name"),
         envelope_field d (lit "cnp"))).
Proof.
  intros C F S J Str.
  rewrite (extract_fields_decoded _ _ _ _ _ C F S J).
  rewrite !read_envelope_key_string;
    try (intros v; apply Str; simpl; auto 6).
  reflexivity.
Qed.

Lemma extract_fields_defaults_and_trims_witness :
  extract_fields_with_openai
    (envelope_world [(lit "cnp", PStr (lit " 1 ")); (lit "note", PInt 7)])
    (lit "text")
  = ([EvChat (extract_prompt (lit "text")); EvJsonLoads (lit "{}")],
     Ok ([], [], [], lit "1")).
Proof.
  apply (extract_fields_defaults_and_trims
           (envelope_world [(lit "cnp", PStr (lit " 1 ")); (lit "note", PInt 7)])
           (lit "text") [Some (lit "{}")] (lit "{}")
           [(lit "cnp", PStr (lit " 1 ")); (lit "note", PInt 7)]);
    try reflexivity.
  intros k v [<-|[<-|[<-|[<-|[]]]]] H; vm_compute in H; try discriminate.
  now injection H as <-.
Defined.

(** X17. One value of the envelope that is not a string, a number or
    [null] say, makes the whole stage fail, whatever the other values
    are: calling [.strip()] on it raises, and the stage re-raises a
    [RuntimeError] starting with ["Error extracting fields with
    OpenAI: "]. *)
Theorem extract_fields_rejects_non_string
  w cleaned_text response raw (d : dict) (k : str) (v : pyval) :
  chat_completion_create w (extract_prompt cleaned_text) = Ok response ->
  first_content response = Ok raw ->
  shape_ok (remove_code_blocks raw) = true ->
  json_loads w (remove_code_blocks raw) = Ok (PDict d) ->
  In k envelope_keys -> lookup d k = Some v -> is_str v = false ->
  exists cause,
    (exn_type cause = AttributeError \/ exn_type cause = TypeError)
    /\ extract_fields_with_openai w cleaned_text
       = ([EvChat (extract_prompt cleaned_text);
           EvJsonLoads (remove_code_blocks raw)],
          Raise (runtime_error
                   (lit "Error extracting fields with OpenAI: "
                    ++ exn_msg cause))).
Proof.
  intros C F S J K L N.
  rewrite (extract_fields_decoded _ _ _ _ _ C F S J).
  assert (Kind : forall u,
             exn_type (no_method u (lit "strip")) = AttributeError
             \/ exn_type (no_method u (lit "strip")) = TypeError).
  { intros u. unfold no_method.
    destruct u; auto. destruct (lookup attrs (lit "strip")); auto. }
  assert (Gen : forall r0 r1 r2 r3 : result str,
             (forall r, In r [r0; r1; r2; r3] -> forall e0, r = Raise e0 ->
                exists u, e0 = no_method u (lit "strip")) ->
             (exists e0, In (Raise e0) [r0; r1; r2; r3]) ->
             exists cause,
               (exn_type cause = AttributeError \/ exn_type cause = TypeError)
               /\ try_except
                    (bind ([EvChat (extract_prompt cleaned_text);
                            EvJsonLoads (remove_code_blocks raw)], Ok tt)
                       (fun _ =>
                          summary <~ lift r0 ;;
                          first_name <~ lift r1 ;;
                          last_name <~ lift r2 ;;
                          cnp <~ lift r3 ;;
                          ret (summary, first_name, last_name, cnp)))
                    (extract_handler (Some (remove_code_blocks raw)))
                  = ([EvChat (extract_prompt cleaned_text);
                      EvJsonLoads (remove_code_blocks raw)],
                     Raise (runtime_error
                              (lit "Error extracting fields with OpenAI: "
                               ++ exn_msg cause)))).
  { intros r0 r1 r2 r3 Shape [e0 Some_raise].
    assert (Done : forall u tr,
               exists cause,
                 (exn_type cause = AttributeError
                  \/ exn_type cause = TypeError)
                 /\ try_except (tr, Raise (no_method u (lit "strip")))
                      (extract_handler (A := str * str * str * str)
                         (Some (remove_code_blocks raw)))
                    = (tr,
                       Raise (runtime_error
                                (lit "Error extracting fields with OpenAI: "
                                 ++ exn_msg cause)))).
    { intros u tr. exists (no_method u (lit "strip")). split; [apply Kind|].
      unfold try_except, extract_handler, raise.
      destruct (Kind u) as [T|T]; unfold isinstance; rewrite T;
        now rewrite app_nil_r. }
    destruct r0 as [s0|x0].
    2: { destruct (Shape (Raise x0) ltac:(simpl; auto) x0 eq_refl) as [u ->].
         apply Done. }
    destruct r1 as [s1|x1].
    2: { destruct (Shape (Raise x1) ltac:(simpl; auto) x1 eq_refl) as [u ->].
         apply Done. }
    destruct r2 as [s2|x2].
    2: { destruct (Shape (Raise x2) ltac:(simpl; auto) x2 eq_refl) as [u ->].
         apply Done. }
    destruct r3 as [s3|x3].
    2: { destruct (Shape (Raise x3) ltac:(simpl; auto) x3 eq_refl) as [u ->].
         apply Done. }
    exfalso. simpl in Some_raise.
    repeat (destruct Some_raise as [Some_raise|Some_raise];
            [discriminate|]).
    exact Some_raise. }
  apply Gen.
  - intros r I e0 E. subst r. simpl in I.
    assert (R : forall x, call_strip x = Raise e0 ->
                exists u, e0 = no_method u (lit "strip")).
    { intros x H. exists x. destruct x; try discriminate;
        now injection H as <-. }
    repeat (destruct I as [I|I]; [exact (R _ I)|]). destruct I.
  - exists (no_method v (lit "strip")).
    pose proof (read_envelope_key_other d k v L N) as X.
    unfold envelope_keys in K.
    destruct K as [<-|[<-|[<-|[<-|[]]]]]; rewrite X; simpl; auto.
Qed.

Lemma extract_fields_rejects_non_string_witness :
  exists cause,
    (exn_type cause = AttributeError \/ exn_type cause = TypeError)
    /\ extract_fields_with_openai
         (envelope_world [(lit "first_name", PStr (lit "Ion"));
                          (lit "cnp", PInt 1900101220031)])
         (lit "text")
       = ([EvChat (extract_prompt (lit "text")); EvJsonLoads (lit "{}")],
          Raise (runtime_error
                   (lit "Error extracting fields with OpenAI: "
                    ++ exn_msg cause))).
Proof.
  apply (extract_fields_rejects_non_string
           (envelope_world [(lit "first_name", PStr (lit "Ion"));
                            (lit "cnp", PInt 1900101220031)])
           (lit "text") [Some (lit "{}")] (lit "{}")
           [(lit "first_name", PStr (lit "Ion"));
            (lit "cnp", PInt 1900101220031)]
           (lit "cnp") (PInt 1900101220031)); try reflexivity.
  simpl. auto.
Defined.

(** X18. When the completion call of the extraction stage itself raises
    a [JSONDecodeError], the first handler runs with [content] not yet
    assigned: the stage raises [UnboundLocalError] instead of one of its
    two [RuntimeError]s, and that is the message the pipeline reports. *)
Theorem extract_fields_unbound_content w cleaned_text e :
  chat_completion_create w (extract_prompt cleaned_text) = Raise e ->
  isinstance e JSONDecodeError = true ->
  extract_fields_with_openai w cleaned_text
  = ([EvChat (extract_prompt cleaned_text)],
     Raise (mk_exn UnboundLocalError
              (lit "cannot access local variable 'content' where it is not associated with a value")))
  /\ forall document_bytes res,
       new_client w = Ok tt ->
       begin_analyze_document w "prebuilt-read" document_bytes = Ok res ->
       snd (clean_text_with_openai w (join [nl] (concat (pages res))))
       = Ok cleaned_text ->
       snd (process_handwritten_document w document_bytes)
       = Ok [(lit "error",
              PStr (lit "cannot access local variable 'content' where it is not associated with a value"))].
Proof.
  intros C I.
  assert (X : extract_fields_with_openai w cleaned_text
              = ([EvChat (extract_prompt cleaned_text)],
                 Raise (mk_exn UnboundLocalError
                          (lit "cannot access local variable 'content' where it is not associated with a value")))).
  { unfold extract_fields_with_openai, extract_content, bind, call.
    rewrite C. unfold try_except, extract_handler. rewrite I. reflexivity. }
  split; [exact X|].
  intros document_bytes res N A Cl.
  unfold process_handwritten_document, process_handwritten_document_body,
    try_except, bind, call, error_result, ret.
  rewrite N, A.
  destruct (clean_text_with_openai w (join [nl] (concat (pages res))))
    as [tr r]. simpl in Cl. subst r. rewrite X. reflexivity.
Qed.

Lemma extract_fields_unbound_content_witness :
  extract_fields_with_openai garbled_world (lit "text")
  = ([EvChat (extract_prompt (lit "text"))],
     Raise (mk_exn UnboundLocalError
              (lit "cannot access local variable 'content' where it is not associated with a value")))
  /\ forall document_bytes res,
       new_client garbled_world = Ok tt ->
       begin_analyze_document garbled_world "prebuilt-read" document_bytes
       = Ok res ->
       snd (clean_text_with_openai garbled_world
              (join [nl] (concat (pages res))))
       = Ok (lit "text") ->
       snd (process_handwritten_document garbled_world document_bytes)
       = Ok [(lit "error",
              PStr (lit "cannot access local variable 'content' where it is not associated with a value"))].
Proof.
  apply (extract_fields_unbound_content garbled_world (lit "text")
           (mk_exn JSONDecodeError (lit "Expecting value")));
    reflexivity.
Defined.

(** ** The completion stages on an answer without text *)

(** X19. Both completion stages read the first choice only.  An answer
    without choices, or whose first choice has a null content, makes the
    stage raise its [RuntimeError], with the message of the failed
    indexing or of the failed [.strip()]; otherwise the cleaning stage
    returns the first content, trimmed and normalised, whatever the
    other choices are. *)
Theorem completion_stages_read_first_choice (w : world) (text : str) :
  (chat_completion_create w (clean_prompt text) = Ok [] ->
   snd (clean_text_with_openai w text)
   = Raise (runtime_error
              (lit "Error cleaning text with OpenAI: list index out of range")))
  /\ (forall rest,
         chat_completion_create w (clean_prompt text) = Ok (None :: rest) ->
         snd (clean_text_with_openai w text)
         = Raise (runtime_error
                    (lit "Error cleaning text with OpenAI: 'NoneType' object has no attribute 'strip'")))
  /\ (forall c rest,
         chat_completion_create w (clean_prompt text) = Ok (Some c :: rest) ->
         snd (clean_text_with_openai w text)
         = Ok (remove_code_blocks (strip c)))
  /\ (chat_completion_create w (extract_prompt text) = Ok [] ->
      snd (extract_fields_with_openai w text)
      = Raise (runtime_error
                 (lit "Error extracting fields with OpenAI: list index out of range")))
  /\ (forall rest,
         chat_completion_create w (extract_prompt text) = Ok (None :: rest) ->
         snd (extract_fields_with_openai w text)
         = Raise (runtime_error
                    (lit "Error extracting fields with OpenAI: 'NoneType' object has no attribute 'strip'"))).
Proof.
  repeat split.
  - intros H. unfold clean_text_with_openai, try_except, bind, call.
    rewrite H. reflexivity.
  - intros rest H. unfold clean_text_with_openai, try_except, bind, call.
    rewrite H. reflexivity.
  - intros c rest H. unfold clean_text_with_openai, try_except, bind, call.
    rewrite H. reflexivity.
  - intros H. unfold extract_fields_with_openai, extract_content, bind, call.
    rewrite H. reflexivity.
  - intros rest H.
    unfold extract_fields_with_openai, extract_content, bind, call.
    rewrite H. reflexivity.
Qed.

(** ** [azure_services.process_handwritten_document], further *)

(** The extraction stage calls the completion once and [json.loads] at
    most once, and ends in an exception when it did not parse. *)
Lemma extract_fields_trace (w : world) (cleaned_text : str) :
  (fst (extract_fields_with_openai w cleaned_text)
   = [EvChat (extract_prompt cleaned_text)]
   /\ exists e, snd (extract_fields_with_openai w cleaned_text) = Raise e)
  \/ (exists content,
        fst (extract_fields_with_openai w cleaned_text)
        = [EvChat (extract_prompt cleaned_text); EvJsonLoads content]).
Proof.
  unfold extract_fields_with_openai, extract_content, bind, call, lift, ret.
  destruct (chat_completion_create w (extract_prompt cleaned_text))
    as [response|e].
  2: { left. unfold try_except, extract_handler, raise.
       destruct (isinstance e JSONDecodeError); simpl; eauto. }
  destruct (first_content response) as [raw|e]; simpl.
  2: { left. unfold try_except, extract_handler, raise.
       destruct (isinstance e JSONDecodeError); simpl; eauto. }
  unfold extract_parse.
  destruct (startswith (remove_code_blocks raw) (lit "{")
            && endswith (remove_code_blocks raw) (lit "}")); simpl.
  2: { left. eauto. }
  right. exists (remove_code_blocks raw).
  unfold bind, call, lift, ret, try_except, extract_handler, raise.
  destruct (json_loads w (remove_code_blocks raw)) as [metadata|e].
  2: { destruct (isinstance e JSONDecodeError); reflexivity. }
  repeat match goal with
         | |- context [rbind ?m ?f] => destruct (rbind m f) as [?|?e]
         | |- context [isinstance ?x ?c] => destruct (isinstance x c)
         end; reflexivity.
Qed.

(** X20. The handwritten pipeline calls its services at most once each
    and in a fixed order: the client, the analysis, the cleaning
    completion, the extraction completion, [json.loads].  It stops at
    the first stage that fails, and whenever it stopped before
    [json.loads] the result is an error result. *)
Theorem process_handwritten_document_calls_in_order
  (w : world) (document_bytes : list Byte.byte) :
  exists n ocr_text cleaned_text content,
    fst (process_handwritten_document w document_bytes)
    = firstn n
        [EvNewClient; EvAnalyze "prebuilt-read" document_bytes;
         EvChat (clean_prompt ocr_text); EvChat (extract_prompt cleaned_text);
         EvJsonLoads content]
    /\ (1 <= n)%nat
    /\ ((n < 5)%nat ->
        exists m,
          snd (process_handwritten_document w document_bytes)
          = Ok [(lit "error", PStr m)]).
Proof.
  unfold process_handwritten_document, process_handwritten_document_body,
    try_except, bind, call, error_result, ret.
  destruct (new_client w) as [[]|e].
  2: { exists 1%nat, [], [], []. simpl. repeat split; eauto. }
  destruct (begin_analyze_document w "prebuilt-read" document_bytes)
    as [res|e].
  2: { exists 2%nat, [], [], []. simpl. repeat split; eauto. }
  pose proof (clean_text_with_openai_trace w
                (join [nl] (concat (pages res)))) as T.
  destruct (clean_text_with_openai w (join [nl] (concat (pages res))))
    as [tr [cleaned|e]]; simpl in T; subst tr.
  2: { exists 3%nat, (join [nl] (concat (pages res))), [], [].
       simpl. repeat split; eauto. }
  destruct (extract_fields_trace w cleaned) as [[T [e R]]|[content T]].
  - destruct (extract_fields_with_openai w cleaned) as [tr r].
    simpl in T, R. subst tr r.
    exists 4%nat, (join [nl] (concat (pages res))), cleaned, [].
    simpl. repeat split; eauto.
  - destruct (extract_fields_with_openai w cleaned) as [tr r].
    simpl in T. subst tr.
    exists 5%nat, (join [nl] (concat (pages res))), cleaned, content.
    destruct r as [[[[s f] l] c]|e]; simpl; repeat split; auto; lia.
Qed.

Lemma call_strip_trimmed (v : pyval) (r : str) :
  call_strip v = Ok r -> strip r = r.
Proof.
  destruct v; try discriminate. simpl. intros H. injection H as <-.
  apply strip_idem.
Qed.

Lemma remove_code_blocks_trimmed (t : str) :
  strip (remove_code_blocks t) = remove_code_blocks t.
Proof.
  unfold remove_code_blocks.
  destruct (re_search json_block_pattern t);
    [|destruct (re_search code_block_pattern t)]; apply strip_idem.
Qed.

Lemma clean_text_with_openai_trimmed w text cleaned :
  snd (clean_text_with_openai w text) = Ok cleaned -> strip cleaned = cleaned.
Proof.
  unfold clean_text_with_openai, try_except, bind, call, lift, ret, raise.
  destruct (chat_completion_create w (clean_prompt text)) as [response|];
    [|discriminate].
  destruct (first_content response); simpl; [|discriminate].
  intros H. injection H as <-. apply remove_code_blocks_trimmed.
Qed.

Lemma extract_fields_with_openai_trimmed w text s f l c :
  snd (extract_fields_with_openai w text) = Ok (s, f, l, c) ->
  strip s = s /\ strip f = f /\ strip l = l /\ strip c = c.
Proof.
  unfold extract_fields_with_openai, extract_content, bind, call, lift, ret.
  destruct (chat_completion_create w (extract_prompt text)) as [response|e].
  2: { unfold try_except, extract_handler, raise.
       destruct (isinstance e JSONDecodeError); discriminate. }
  destruct (first_content response) as [raw|e]; simpl.
  2: { unfold try_except, extract_handler, raise.
       destruct (isinstance e JSONDecodeError); discriminate. }
  unfold extract_parse.
  destruct (startswith (remove_code_blocks raw) (lit "{")
            && endswith (remove_code_blocks raw) (lit "}")); simpl;
    [|discriminate].
  unfold bind, call, lift, ret, try_except, extract_handler, raise.
  destruct (json_loads w (remove_code_blocks raw)) as [metadata|e].
  2: { destruct (isinstance e JSONDecodeError); discriminate. }
  unfold rbind.
  destruct (call_get metadata (lit "summary") (PStr [])) as [v0|e];
    [|destruct (isinstance e JSONDecodeError); discriminate].
  destruct (call_strip v0) as [s0|e] eqn:E0;
    [|destruct (isinstance e JSONDecodeError); discriminate].
  destruct (call_get metadata (lit "first_name") (PStr [])) as [v1|e];
    [|destruct (isinstance e JSONDecodeError); discriminate].
  destruct (call_strip v1) as [s1|e] eqn:E1;
    [|destruct (isinstance e JSONDecodeError); discriminate].
  destruct (call_get metadata (lit "last_name") (PStr [])) as [v2|e];
    [|destruct (isinstance e JSONDecodeError); discriminate].
  destruct (call_strip v2) as [s2|e] eqn:E2;
    [|destruct (isinstance e JSONDecodeError); discriminate].
  destruct (call_get metadata (lit "cnp") (PStr [])) as [v3|e];
    [|destruct (isinstance e JSONDecodeError); discriminate].
  destruct (call_strip v3) as [s3|e] eqn:E3;
    [|destruct (isinstance e JSONDecodeError); discriminate].
  simpl. intros H. injection H as <- <- <- <-.
  repeat split; eapply call_strip_trimmed; eassumption.
Qed.

(** X21. A result of the handwritten pipeline that is not an error
    result has exactly the entries ['extracted_text'], ['summary'],
    ['first_name'], ['last_name'] and ['cnp'], in this order, all of them
    strings without white space at either end.  The transcript is the
    cleaned form of the recognised lines of all pages joined by
    newlines, and the four other values were extracted from that cleaned
    transcript, not from the raw lines. *)
Theorem process_handwritten_document_success
  (w : world) (document_bytes : list Byte.byte) (d : dict) :
  snd (process_handwritten_document w document_bytes) = Ok d ->
  lookup d (lit "error") = None ->
  exists res cleaned_text summary first_name last_name cnp,
    begin_analyze_document w "prebuilt-read" document_bytes = Ok res
    /\ snd (clean_text_with_openai w (join [nl] (concat (pages res))))
       = Ok cleaned_text
    /\ snd (extract_fields_with_openai w cleaned_text)
       = Ok (summary, first_name, last_name, cnp)
    /\ d = [(lit "extracted_text", PStr cleaned_text);
            (lit "summary", PStr summary);
            (lit "first_name", PStr first_name);
            (lit "last_name", PStr last_name); (lit "cnp", PStr cnp)]
    /\ strip cleaned_text = cleaned_text /\ strip summary = summary
    /\ strip first_name = first_name /\ strip last_name = last_name
    /\ strip cnp = cnp.
Proof.
  unfold process_handwritten_document, process_handwritten_document_body,
    try_except, bind, call, error_result, ret.
  destruct (new_client w) as [[]|e].
  2: { simpl. intros H. injection H as <-. discriminate. }
  destruct (begin_analyze_document w "prebuilt-read" document_bytes)
    as [res|e].
  2: { simpl. intros H. injection H as <-. discriminate. }
  destruct (clean_text_with_openai w (join [nl] (concat (pages res))))
    as [tr1 [cleaned|e]] eqn:Cl.
  2: { simpl. intros H. injection H as <-. discriminate. }
  destruct (extract_fields_with_openai w cleaned)
    as [tr2 [[[[s f] l] c]|e]] eqn:Ex.
  2: { simpl. intros H. injection H as <-. discriminate. }
  simpl. intros H _. injection H as <-.
  assert (Cl' : snd (clean_text_with_openai w (join [nl] (concat (pages res))))
                = Ok cleaned) by now rewrite Cl.
  assert (Ex' : snd (extract_fields_with_openai w cleaned) = Ok (s, f, l, c))
    by now rewrite Ex.
  destruct (extract_fields_with_openai_trimmed _ _ _ _ _ _ Ex')
    as (T0 & T1 & T2 & T3).
  exists res, cleaned, s, f, l, c.
  repeat split; auto. exact (clean_text_with_openai_trimmed _ _ _ Cl').
Qed.

Lemma process_handwritten_document_success_witness :
  exists res cleaned_text summary first_name last_name cnp,
    begin_analyze_document (envelope_world [(lit "cnp", PStr (lit " 1 "))])
      "prebuilt-read" [] = Ok res
    /\ snd (clean_text_with_openai (envelope_world [(lit "cnp", PStr (lit " 1 "))])
              (join [nl] (concat (pages res))))
       = Ok cleaned_text
    /\ snd (extract_fields_with_openai
              (envelope_world [(lit "cnp", PStr (lit " 1 "))]) cleaned_text)
       = Ok (summary, first_name, last_name, cnp)
    /\ [(lit "extracted_text", PStr (lit "{}")); (lit "summary", PStr []);
        (lit "first_name", PStr []); (lit "last_name", PStr []);
        (lit "cnp", PStr (lit "1"))]
       = [(lit "extracted_text", PStr cleaned_text);
          (lit "summary", PStr summary);
          (lit "first_name", PStr first_name);
          (lit "last_name", PStr last_name); (lit "cnp", PStr cnp)]
    /\ strip cleaned_text = cleaned_text /\ strip summary = summary
    /\ strip first_name = first_name /\ strip last_name = last_name
    /\ strip cnp = cnp.
Proof.
  apply (process_handwritten_document_success
           (envelope_world [(lit "cnp", PStr (lit " 1 "))]) []);
    reflexivity.
Defined.

(** ** [utils.display_data_preview] *)



(** ** The two steps of [main.py] *)

Lemma db_calls_app (a b : list app_event) :
  db_calls (a ++ b) = db_calls a ++ db_calls b.
Proof. apply flat_map_app. Qed.

Lemma db_calls_File (tr : list file_event) : db_calls (map File tr) = [].
Proof. induction tr; simpl; auto. Qed.

Lemma db_calls_Service (tr : list event) : db_calls (map Service tr) = [].
Proof. induction tr; simpl; auto. Qed.

Lemma db_calls_Ui (tr : list ui_event) : db_calls (map Ui tr) = [].
Proof. induction tr; simpl; auto. Qed.

Lemma db_calls_Db (tr : list db_event) : db_calls (map Db tr) = tr.
Proof. induction tr; simpl; congruence. Qed.

Lemma service_calls_File (tr : list file_event) :
  flat_map (fun e => match e with Service d => [d] | _ => [] end)
    (map File tr) = [].
Proof. induction tr; simpl; auto. Qed.

Ltac db_calls_norm :=
  repeat (rewrite db_calls_app || rewrite db_calls_File
          || rewrite db_calls_Service || rewrite db_calls_Ui
          || rewrite db_calls_Db || rewrite app_nil_r
          || (progress cbn [db_calls flat_map app fst snd])).

Section Steps.

Variable unicode_decimal : char -> option Z.
Variable unicode_isdigit : char -> bool.
Variable unicode_lower : str -> nat -> str.
Variable lib : imaging.
Variable w : world.
Variable dbw : db_world.

(** X23. Step 1 touches the database only through one call of
    [save_id_data], made only when the button was clicked, the pipeline
    returned no ['error'] entry, and the trimmed ['cnp'] of its result is
    not empty and was accepted by [validate_cnp]; what is saved are the
    trimmed entries of that result. *)
Theorem step1_saves_only_a_validated_cnp
  (uploaded_id_file : upload) (save_clicked : bool) :
  db_calls
    (fst (step1_id_card unicode_decimal unicode_isdigit unicode_lower lib w
            dbw uploaded_id_file save_clicked)) = []
  \/ (save_clicked = true
      /\ exists doc_bytes data first_name last_name cnp,
           snd (validate_and_prepare_file unicode_lower lib uploaded_id_file)
           = Ok doc_bytes
           /\ snd (process_id_document unicode_isdigit w doc_bytes) = Ok data
           /\ lookup data (lit "error") = None
           /\ call_strip (dict_get_default data (lit "first_name") (PStr []))
              = Ok first_name
           /\ call_strip (dict_get_default data (lit "last_name") (PStr []))
              = Ok last_name
           /\ call_strip (dict_get_default data (lit "cnp") (PStr [])) = Ok cnp
           /\ cnp <> []
           /\ validate_cnp unicode_decimal cnp = Ok true
           /\ db_calls
                (fst (step1_id_card unicode_decimal unicode_isdigit
                        unicode_lower lib w dbw uploaded_id_file save_clicked))
              = fst (save_id_data dbw first_name last_name cnp)).
Proof.
  remember (step1_id_card unicode_decimal unicode_isdigit unicode_lower lib w
              dbw uploaded_id_file save_clicked) as run eqn:R.
  unfold step1_id_card, act_try, act_bind, act_map, get_stripped, act_lift,
    st, act_call, act_ret in R.
  destruct (validate_and_prepare_file unicode_lower lib uploaded_id_file)
    as [tr1 [doc_bytes|e1]] eqn:P1; simpl in R.
  2: { left. subst run. now db_calls_norm. }
  destruct (process_id_document unicode_isdigit w doc_bytes)
    as [tr2 [data|e2]] eqn:P2; simpl in R.
  2: { left. subst run. now db_calls_norm. }
  destruct (lookup data (lit "error")) as [err|] eqn:Err; simpl in R.
  { left. subst run. now db_calls_norm. }
  destruct (preview_items data) as [tr3 [[]|e3]]; simpl in R.
  2: { left. subst run. now db_calls_norm. }
  destruct (call_strip (dict_get_default data (lit "first_name") (PStr [])))
    as [first_name|e4] eqn:F; simpl in R.
  2: { left. subst run. now db_calls_norm. }
  destruct (call_strip (dict_get_default data (lit "last_name") (PStr [])))
    as [last_name|e5] eqn:L; simpl in R.
  2: { left. subst run. now db_calls_norm. }
  destruct (call_strip (dict_get_default data (lit "cnp") (PStr [])))
    as [cnp|e6] eqn:C; simpl in R.
  2: { left. subst run. now db_calls_norm. }
  destruct cnp as [|c0 cnp']; simpl in R.
  { left. subst run. now db_calls_norm. }
  destruct (validate_cnp unicode_decimal (c0 :: cnp')) as [[|]|e7] eqn:V;
    simpl in R.
  2: { left. subst run. now db_calls_norm. }
  2: { left. subst run. now db_calls_norm. }
  destruct save_clicked; simpl in R.
  2: { left. subst run. now db_calls_norm. }
  right. split; [reflexivity|].
  exists doc_bytes, data, first_name, last_name, (c0 :: cnp').
  repeat split; auto; try discriminate; try (now rewrite P2).
  destruct (save_id_data dbw first_name last_name (c0 :: cnp'))
    as [tr4 [[]|e8]]; simpl in R; subst run; now db_calls_norm.
Qed.

(** X24. Step 2 touches the database only through one call of
    [save_processed_text], made only when the button was clicked and the
    pipeline returned no ['error'] entry; the trimmed ['cnp'] of the
    result is then either empty or accepted by [validate_cnp], and what
    is saved are the trimmed entries of that result. *)
Theorem step2_saves_only_a_checked_cnp
  (uploaded_text_file : upload) (save_clicked : bool) :
  db_calls
    (fst (step2_handwritten unicode_decimal unicode_lower lib w dbw
            uploaded_text_file save_clicked)) = []
  \/ (save_clicked = true
      /\ exists doc_bytes data extracted_text summary first_name last_name cnp,
           snd (validate_and_prepare_file unicode_lower lib uploaded_text_file)
           = Ok doc_bytes
           /\ snd (process_handwritten_document w doc_bytes) = Ok data
           /\ lookup data (lit "error") = None
           /\ call_strip (dict_get_default data (lit "extracted_text")
                            (PStr [])) = Ok extracted_text
           /\ call_strip (dict_get_default data (lit "summary") (PStr []))
              = Ok summary
           /\ call_strip (dict_get_default data (lit "first_name") (PStr []))
              = Ok first_name
           /\ call_strip (dict_get_default data (lit "last_name") (PStr []))
              = Ok last_name
           /\ call_strip (dict_get_default data (lit "cnp") (PStr [])) = Ok cnp
           /\ (cnp = [] \/ validate_cnp unicode_decimal cnp = Ok true)
           /\ db_calls
                (fst (step2_handwritten unicode_decimal unicode_lower lib w
                        dbw uploaded_text_file save_clicked))
              = fst (save_processed_text dbw extracted_text summary first_name
                       last_name cnp)).
Proof.
  remember (step2_handwritten unicode_decimal unicode_lower lib w dbw
              uploaded_text_file save_clicked) as run eqn:R.
  unfold step2_handwritten, act_try, act_bind, act_map, get_stripped,
    act_lift, st, act_call, act_ret in R.
  destruct (validate_and_prepare_file unicode_lower lib uploaded_text_file)
    as [tr1 [doc_bytes|e1]] eqn:P1; simpl in R.
  2: { left. subst run. now db_calls_norm. }
  destruct (process_handwritten_document w doc_bytes)
    as [tr2 [data|e2]] eqn:P2; simpl in R.
  2: { left. subst run. now db_calls_norm. }
  destruct (lookup data (lit "error")) as [err|] eqn:Err; simpl in R.
  { left. subst run. now db_calls_norm. }
  destruct (call_strip (dict_get_default data (lit "extracted_text")
                          (PStr []))) as [extracted_text|e3] eqn:T;
    simpl in R.
  2: { left. subst run. now db_calls_norm. }
  destruct (call_strip (dict_get_default data (lit "summary") (PStr [])))
    as [summary|e4] eqn:S; simpl in R.
  2: { left. subst run. now db_calls_norm. }
  destruct (call_strip (dict_get_default data (lit "first_name") (PStr [])))
    as [first_name|e5] eqn:F; simpl in R.
  2: { left. subst run. now db_calls_norm. }
  destruct (call_strip (dict_get_default data (lit "last_name") (PStr [])))
    as [last_name|e6] eqn:L; simpl in R.
  2: { left. subst run. now db_calls_norm. }
  destruct (call_strip (dict_get_default data (lit "cnp") (PStr [])))
    as [cnp|e7] eqn:C; simpl in R.
  2: { left. subst run. now db_calls_norm. }
  destruct cnp as [|c0 cnp']; simpl in R.
  - destruct save_clicked; simpl in R.
    2: { left. subst run. now db_calls_norm. }
    right. split; [reflexivity|].
    exists doc_bytes, data, extracted_text, summary, first_name, last_name,
      [].
    repeat split; auto; try (now rewrite P2).
    destruct (save_processed_text dbw extracted_text summary first_name
                last_name []) as [tr4 [[]|e8]]; simpl in R; subst run;
      now db_calls_norm.
  - destruct (validate_cnp unicode_decimal (c0 :: cnp')) as [[|]|e9] eqn:V;
      simpl in R.
    2: { left. subst run. now db_calls_norm. }
    2: { left. subst run. now db_calls_norm. }
    destruct save_clicked; simpl in R.
    2: { left. subst run. now db_calls_norm. }
    right. split; [reflexivity|].
    exists doc_bytes, data, extracted_text, summary, first_name, last_name,
      (c0 :: cnp').
    repeat split; auto; try (now rewrite P2).
    destruct (save_processed_text dbw extracted_text summary first_name
                last_name (c0 :: cnp')) as [tr4 [[]|e8]]; simpl in R;
      subst run; now db_calls_norm.
Qed.

(** X25. A file that cannot be prepared goes nowhere: step 1 shows the
    error and calls neither a service nor the database. *)
Theorem step1_unprepared_file_goes_nowhere
  (uploaded_id_file : upload) (save_clicked : bool) (e : exn) :
  snd (validate_and_prepare_file unicode_lower lib uploaded_id_file)
  = Raise e ->
  step1_id_card unicode_decimal unicode_isdigit unicode_lower lib w dbw
    uploaded_id_file save_clicked
  = (map File
       (fst (validate_and_prepare_file unicode_lower lib uploaded_id_file))
     ++ [Ui (St st_error
               [Txt (lit "Error processing the ID card: " ++ exn_msg e)])],
     Ok tt)
  /\ service_calls
       (fst (step1_id_card unicode_decimal unicode_isdigit unicode_lower lib
               w dbw uploaded_id_file save_clicked)) = []
  /\ db_calls
       (fst (step1_id_card unicode_decimal unicode_isdigit unicode_lower lib
               w dbw uploaded_id_file save_clicked)) = [].
Proof.
  intros H.
  assert (X : step1_id_card unicode_decimal unicode_isdigit unicode_lower lib
                w dbw uploaded_id_file save_clicked
              = (map File
                   (fst (validate_and_prepare_file unicode_lower lib
                           uploaded_id_file))
                 ++ [Ui (St st_error
                           [Txt (lit "Error processing the ID card: "
                                 ++ exn_msg e)])],
                 Ok tt)).
  { unfold step1_id_card, act_try, act_bind, act_map, st, act_call.
    destruct (validate_and_prepare_file unicode_lower lib uploaded_id_file)
      as [tr r]. simpl in H. subst r. reflexivity. }
  rewrite X. split; [reflexivity|]. cbn [fst]. split.
  - unfold service_calls. rewrite flat_map_app.
    now rewrite (service_calls_File _).
  - now db_calls_norm.
Qed.

(** X26. Step 2 asks for no personal number: when the trimmed ['cnp']
    of the result is empty, [validate_cnp] is not consulted and a click
    on the button saves the record with an empty number. *)
Theorem step2_saves_empty_cnp_unvalidated
  (uploaded_text_file : upload) (doc_bytes : list Byte.byte) (data : dict)
  (extracted_text summary first_name last_name : str) :
  snd (validate_and_prepare_file unicode_lower lib uploaded_text_file)
  = Ok doc_bytes ->
  snd (process_handwritten_document w doc_bytes) = Ok data ->
  lookup data (lit "error") = None ->
  call_strip (dict_get_default data (lit "extracted_text") (PStr []))
  = Ok extracted_text ->
  call_strip (dict_get_default data (lit "summary") (PStr [])) = Ok summary ->
  call_strip (dict_get_default data (lit "first_name") (PStr []))
  = Ok first_name ->
  call_strip (dict_get_default data (lit "last_name") (PStr []))
  = Ok last_name ->
  call_strip (dict_get_default data (lit "cnp") (PStr [])) = Ok [] ->
  db_calls
    (fst (step2_handwritten unicode_decimal unicode_lower lib w dbw
            uploaded_text_file true))
  = fst (save_processed_text dbw extracted_text summary first_name last_name
           []).
Proof.
  intros P1 P2 Err T S F L C.
  unfold step2_handwritten, act_try, act_bind, act_map, get_stripped,
    act_lift, st, act_call, act_ret.
  destruct (validate_and_prepare_file unicode_lower lib uploaded_text_file)
    as [tr1 r1]. simpl in P1. subst r1. cbn [fst snd].
  destruct (process_handwritten_document w doc_bytes) as [tr2 r2].
  simpl in P2. subst r2. cbn [fst snd].
  rewrite Err, T, S, F, L, C. simpl.
  destruct (save_processed_text dbw extracted_text summary first_name
              last_name []) as [tr4 [[]|e8]]; simpl; now db_calls_norm.
Qed.

End Steps.

Lemma step1_unprepared_file_goes_nowhere_witness :
  step1_id_card ascii_decimal ascii_isdigit identity_lower gif_imaging
    (id_world []) healthy_db
    {| name := lit "card.gif"; data := [Byte.x47] |} true
  = (map File
       (fst (validate_and_prepare_file identity_lower gif_imaging
               {| name := lit "card.gif"; data := [Byte.x47] |}))
     ++ [Ui (St st_error
               [Txt (lit "Error processing the ID card: "
                     ++ exn_msg
                          (runtime_error
                             (lit "Error validating or preparing file: Unsupported image format. Please upload a JPEG, PNG, or PDF file.")))])],
     Ok tt)
  /\ service_calls
       (fst (step1_id_card ascii_decimal ascii_isdigit identity_lower
               gif_imaging (id_world []) healthy_db
               {| name := lit "card.gif"; data := [Byte.x47] |} true)) = []
  /\ db_calls
       (fst (step1_id_card ascii_decimal ascii_isdigit identity_lower
               gif_imaging (id_world []) healthy_db
               {| name := lit "card.gif"; data := [Byte.x47] |} true)) = [].
Proof.
  apply (step1_unprepared_file_goes_nowhere ascii_decimal ascii_isdigit
           identity_lower gif_imaging (id_world []) healthy_db
           {| name := lit "card.gif"; data := [Byte.x47] |} true).
  reflexivity.
Defined.

Lemma step2_saves_empty_cnp_unvalidated_witness :
  db_calls
    (fst (step2_handwritten ascii_decimal identity_lower png_imaging
            (envelope_world [(lit "summary", PStr (lit "s"))]) healthy_db
            {| name := lit "note.png"; data := [Byte.x89] |} true))
  = fst (save_processed_text healthy_db (lit "{}") (lit "s") [] [] []).
Proof.
  apply (step2_saves_empty_cnp_unvalidated ascii_decimal identity_lower
           png_imaging (envelope_world [(lit "summary", PStr (lit "s"))])
           healthy_db {| name := lit "note.png"; data := [Byte.x89] |} []
           [(lit "extracted_text", PStr (lit "{}"));
            (lit "summary", PStr (lit "s")); (lit "first_name", PStr []);
            (lit "last_name", PStr []); (lit "cnp", PStr [])]);
    reflexivity.
Defined.
